(** * Senior-male emotion detector: feature extraction and decision cascade

    Shallow embedding of [emotion_gui.py]: the two feature extractors
    [extract_mfcc_sequence] and [extract_mel_features] and the pipeline
    [analyze_audio].

    Numbers are the real numbers of the Standard Library (the idealisation
    of numpy's floats); arrays are lists of rows.  The calls into librosa,
    Keras and the pickled label encoder are fields of a record of external
    capabilities; every call is logged in a trace, and every call may
    raise. *)

From Stdlib Require Import String List Arith Lia Bool.
From Stdlib Require Import ZArith Reals Lra.
Import ListNotations.
Open Scope string_scope.
Open Scope list_scope.
Open Scope nat_scope.

(** ** Arrays *)

Definition signal := list R.
Definition matrix := list (list R).
Definition tensor3 := list (list (list R)).
Definition tensor4 := list (list (list (list R))).

(** [m.shape[1]] of a two-dimensional array stored as a list of rows. *)
Definition ncols (m : matrix) : nat :=
  match m with
  | [] => 0
  | r :: _ => length r
  end.

(** An [r] x [c] array. *)
Definition has_shape (r c : nat) (m : matrix) : Prop :=
  length m = r /\ Forall (fun row => length row = c) m.

(** A three-dimensional array of shape ([a], [b], [c]). *)
Definition has_shape3 (a b c : nat) (t : tensor3) : Prop :=
  length t = a /\ Forall (has_shape b c) t.

(** [np.pad(m, pad_width=((0, 0), (0, pad_width)), mode='constant')]:
    nothing is added to the first axis, [pad_width] zeros are appended to
    every row. *)
Definition np_pad_right (m : matrix) (pad_width : nat) : matrix :=
  map (fun row => row ++ repeat 0%R pad_width) m.

(** [m[:, :max_len]]. *)
Definition slice_cols (m : matrix) (max_len : nat) : matrix :=
  map (firstn max_len) m.

(** [m.T] for an array with [ncols m] columns. *)
Definition col (m : matrix) (j : nat) : list R :=
  map (fun row => nth j row 0%R) m.

Definition transpose (m : matrix) : matrix :=
  map (col m) (seq 0 (ncols m)).

(** [m[..., np.newaxis]]: every scalar becomes a one-element axis. *)
Definition newaxis_last (m : matrix) : tensor3 :=
  map (map (fun x => [x])) m.

(** [np.expand_dims(a, axis=0)]. *)
Definition expand_dims0 {A : Type} (a : A) : list A := [a].

(** ** Exceptions and results *)

Inductive exn : Type :=
| Exception (msg : string).

Definition exn_msg (e : exn) : string :=
  match e with Exception m => m end.

Definition result (A : Type) : Type := (exn + A)%type.

(** [np.max] of a flattened array; numpy raises on an empty one. *)
Fixpoint max_from (best : R) (l : list R) : R :=
  match l with
  | [] => best
  | x :: t => max_from (Rmax best x) t
  end.

Definition np_max (l : list R) : result R :=
  match l with
  | [] => inl (Exception "zero-size array to reduction operation maximum which has no identity")
  | x :: t => inr (max_from x t)
  end.

(** [np.argmax] of a flattened array: the first index of the maximum. *)
Fixpoint argmax_from (best : R) (bi i : nat) (l : list R) : nat :=
  match l with
  | [] => bi
  | x :: t =>
      if Rlt_dec best x then argmax_from x i (S i) t
      else argmax_from best bi (S i) t
  end.

Definition np_argmax (l : list R) : result nat :=
  match l with
  | [] => inl (Exception "attempt to get argmax of an empty sequence")
  | x :: t => inr (argmax_from x 0 1 t)
  end.

(** ** librosa.power_to_db

    [librosa.power_to_db(S, ref=np.max)] with the library's defaults
    [amin=1e-10] and [top_db=80.0]:
    [log_spec = 10*log10(maximum(amin, S)) - 10*log10(maximum(amin, ref(S)))],
    then [maximum(log_spec, log_spec.max() - top_db)]. *)

Definition amin : R := 1e-10.
Definition top_db : R := 80.
Definition log10 (x : R) : R := ln x / ln 10.

Definition flatten (m : matrix) : list R := concat m.

Definition power_to_db (S : matrix) : result matrix :=
  match np_max (flatten S) with
  | inl e => inl e
  | inr ref_value =>
      let log_spec :=
        map (map (fun x => 10 * log10 (Rmax amin x)
                           - 10 * log10 (Rmax amin ref_value))%R) S in
      match np_max (flatten log_spec) with
      | inl e => inl e
      | inr mx => inr (map (map (fun v => Rmax v (mx - top_db))) log_spec)
      end
  end.

(** The flattened values of a three-dimensional array. *)
Definition flatten3 (t : tensor3) : list R := concat (concat t).

(** ** The world outside the program *)

(** The calls that leave the program, in the order they are made. *)
Inductive event : Type :=
| EvLoad (path : string)
| EvMfcc (y : signal)
| EvMelspectrogram (y : signal)
| EvPredictGender (x : tensor3)
| EvPredictAge (x : tensor3)
| EvPredictEmotion (x : tensor4)
| EvInverseTransform (idx : nat)
| EvPrint (s : string).

(** [loads] counts the calls to [librosa.load] made so far: the file a path
    names may change between two calls. *)
Record World : Type := mkWorld {
  loads : nat;
  trace : list event
}.

(** The libraries and the artefacts loaded at start-up.  [librosa_load k p]
    is what the [k]-th call of [librosa.load(p, sr=22050)] decodes;
    [librosa_mfcc y n] is [librosa.feature.mfcc(y=y, sr=22050, n_mfcc=n)];
    [librosa_melspectrogram y n] is
    [librosa.feature.melspectrogram(y=y, sr=22050, n_mels=n)]; the three
    [predict] fields are the Keras models and [inverse_transform k] is
    [emotion_encoder.inverse_transform([k])[0]]. *)
Record Externals : Type := mkExternals {
  librosa_load : nat -> string -> result signal;
  librosa_mfcc : signal -> nat -> result matrix;
  librosa_melspectrogram : signal -> nat -> result matrix;
  gender_model_predict : tensor3 -> result matrix;
  age_model_predict : tensor3 -> result matrix;
  emotion_model_predict : tensor4 -> result matrix;
  inverse_transform : nat -> result string
}.

(** What librosa documents about the shapes it returns: [n_mfcc] (resp.
    [n_mels]) rows, one column per analysis frame. *)
Record LibrosaShapes (E : Externals) : Prop := mkLibrosaShapes {
  mfcc_shape : forall y n m,
    librosa_mfcc E y n = inr m -> exists frames, has_shape n frames m;
  melspectrogram_shape : forall y n m,
    librosa_melspectrogram E y n = inr m -> exists frames, has_shape n frames m
}.

(** ** A state and exception monad *)

Definition M (A : Type) : Type := World -> result A * World.

Definition ret {A} (a : A) : M A := fun w => (inr a, w).

Definition bind {A B} (m : M A) (k : A -> M B) : M B :=
  fun w =>
    match m w with
    | (inl e, w') => (inl e, w')
    | (inr a, w') => k a w'
    end.

Notation "x <- c1 ;; c2" := (bind c1 (fun x => c2))
  (at level 61, c1 at next level, right associativity).
Notation "c1 ;; c2" := (bind c1 (fun _ => c2))
  (at level 61, right associativity).

(** [try: body  except Exception as e: handler e]. *)
Definition try_except {A} (body : M A) (handler : exn -> M A) : M A :=
  fun w =>
    match body w with
    | (inl e, w') => handler e w'
    | (inr a, w') => (inr a, w')
    end.

Definition emit (ev : event) : M unit :=
  fun w => (inr tt, mkWorld (loads w) (trace w ++ [ev])).

(** A pure computation that may raise. *)
Definition lift {A} (r : result A) : M A := fun w => (r, w).

(** A logged call of a function of a library. *)
Definition call {A} (ev : event) (r : result A) : M A :=
  emit ev ;; lift r.

Definition print (s : string) : M unit := emit (EvPrint s).

Definition load (E : Externals) (file_path : string) : M signal :=
  fun w =>
    (librosa_load E (loads w) file_path,
     mkWorld (S (loads w)) (trace w ++ [EvLoad file_path])).

(** ** Feature extraction *)

(** The branch that the two extractors share: pad the time axis with
    trailing zeros up to [max_len], or keep the first [max_len] columns.
    Both extractors below spell it out, as the source does. *)
Definition fix_length (m : matrix) (max_len : nat) : matrix :=
  if ncols m <? max_len then
    let pad_width := max_len - ncols m in
    np_pad_right m pad_width
  else
    slice_cols m max_len.

Definition extract_mfcc_sequence (E : Externals) (file_path : string)
    (max_len : nat) : M (option matrix) :=
  try_except
    (y <- load E file_path ;;
     mfcc <- call (EvMfcc y) (librosa_mfcc E y 13) ;;
     let mfcc :=
       if ncols mfcc <? max_len then
         let pad_width := max_len - ncols mfcc in
         np_pad_right mfcc pad_width
       else
         slice_cols mfcc max_len in
     ret (Some (transpose mfcc)))
    (fun e =>
       print ("[ERROR] MFCC extraction failed: " ++ exn_msg e)%string ;;
       ret None).

Definition extract_mel_features (E : Externals) (file_path : string)
    (max_len : nat) : M (option tensor3) :=
  try_except
    (y <- load E file_path ;;
     mel <- call (EvMelspectrogram y) (librosa_melspectrogram E y 128) ;;
     mel_db <- lift (power_to_db mel) ;;
     let mel_db :=
       if ncols mel_db <? max_len then
         let pad_width := max_len - ncols mel_db in
         np_pad_right mel_db pad_width
       else
         slice_cols mel_db max_len in
     let mel_db := newaxis_last mel_db in
     ret (Some mel_db))
    (fun e =>
       print ("[ERROR] Mel feature extraction failed: " ++ exn_msg e)%string ;;
       ret None).

(** ** The pipeline *)

Definition analyze_audio (E : Externals) (file_path : string) : M string :=
  try_except
    (mfcc_seq <- extract_mfcc_sequence E file_path 160 ;;
     match mfcc_seq with
     | None => ret "❌ Error: Could not extract MFCC sequence."
     | Some mfcc_seq =>
         let X_mfcc := expand_dims0 mfcc_seq in
         gender_pred <- call (EvPredictGender X_mfcc)
                             (gender_model_predict E X_mfcc) ;;
         gender_idx <- lift (np_argmax (flatten gender_pred)) ;;
         let gender := if gender_idx =? 1 then "male" else "female" in
         print ("[INFO] Gender: " ++ gender)%string ;;
         if String.eqb gender "female" then
           ret "🚫 Rejected: Female voice detected."
         else
           age_pred <- call (EvPredictAge X_mfcc)
                            (age_model_predict E X_mfcc) ;;
           age_idx <- lift (np_argmax (flatten age_pred)) ;;
           let is_senior := age_idx =? 1 in
           print ("[INFO] Age Group: "
                  ++ (if is_senior then "senior" else "non-senior"))%string ;;
           if negb is_senior then
             ret "🚫 Rejected: Not a senior (under 60)."
           else
             mel_feat <- extract_mel_features E file_path 160 ;;
             match mel_feat with
             | None => ret "❌ Error: Could not extract Mel features."
             | Some mel_feat =>
                 let X_mel := expand_dims0 mel_feat in
                 emotion_pred <- call (EvPredictEmotion X_mel)
                                      (emotion_model_predict E X_mel) ;;
                 emotion_idx <- lift (np_argmax (flatten emotion_pred)) ;;
                 emotion_label <- call (EvInverseTransform emotion_idx)
                                       (inverse_transform E emotion_idx) ;;
                 print ("[INFO] Emotion: " ++ emotion_label)%string ;;
                 ret ("✅ Detected Emotion: " ++ emotion_label)%string
             end
     end)
    (fun e =>
       print ("[ERROR] analyze_audio(): " ++ exn_msg e)%string ;;
       ret ("❌ Error: " ++ exn_msg e)%string).

(** ** Runs written out

    The worlds and the stages of a run, used to state what a run did. *)

(** The world after one more call of [librosa.load] and the events [evs]
    that followed it. *)
Definition after_load (w : World) (file_path : string) (evs : list event)
  : World :=
  mkWorld (S (loads w)) (trace w ++ EvLoad file_path :: evs).

(** The world [w] after the further events [evs]. *)
Definition log (w : World) (evs : list event) : World :=
  mkWorld (loads w) (trace w ++ evs).

(** What the outer handler of [analyze_audio] returns for an exception [e]
    raised in the world [w] after the events [evs]. *)
Definition handled (e : exn) (w : World) (evs : list event)
  : result string * World :=
  (inr ("❌ Error: " ++ exn_msg e)%string,
   log w (evs ++ [EvPrint ("[ERROR] analyze_audio(): " ++ exn_msg e)%string])).

(** The emotion stage, entered in the world [w]. *)
Definition emotion_stage (E : Externals) (file_path : string) (w : World)
  : result string * World :=
  match extract_mel_features E file_path 160 w with
  | (inl e, w2) => handled e w2 []
  | (inr None, w2) => (inr "❌ Error: Could not extract Mel features.", w2)
  | (inr (Some mel_feat), w2) =>
      let X_mel := [mel_feat] in
      match emotion_model_predict E X_mel with
      | inl e => handled e w2 [EvPredictEmotion X_mel]
      | inr emotion_pred =>
          match np_argmax (flatten emotion_pred) with
          | inl e => handled e w2 [EvPredictEmotion X_mel]
          | inr idx =>
              match inverse_transform E idx with
              | inl e =>
                  handled e w2 [EvPredictEmotion X_mel; EvInverseTransform idx]
              | inr label =>
                  (inr ("✅ Detected Emotion: " ++ label)%string,
                   log w2 [EvPredictEmotion X_mel; EvInverseTransform idx;
                           EvPrint ("[INFO] Emotion: " ++ label)%string])
              end
          end
      end
  end.

(** The age stage, entered in the world [w] with the batch [X_mfcc]. *)
Definition age_stage (E : Externals) (file_path : string) (X_mfcc : tensor3)
    (w : World)
  : result string * World :=
  match age_model_predict E X_mfcc with
  | inl e => handled e w [EvPredictAge X_mfcc]
  | inr age_pred =>
      match np_argmax (flatten age_pred) with
      | inl e => handled e w [EvPredictAge X_mfcc]
      | inr idx =>
          if idx =? 1 then
            emotion_stage E file_path
              (log w [EvPredictAge X_mfcc; EvPrint "[INFO] Age Group: senior"])
          else
            (inr "🚫 Rejected: Not a senior (under 60).",
             log w [EvPredictAge X_mfcc;
                    EvPrint "[INFO] Age Group: non-senior"])
      end
  end.

(** The gender stage, entered in the world [w] with the batch [X_mfcc]. *)
Definition gender_stage (E : Externals) (file_path : string)
    (X_mfcc : tensor3) (w : World)
  : result string * World :=
  match gender_model_predict E X_mfcc with
  | inl e => handled e w [EvPredictGender X_mfcc]
  | inr gender_pred =>
      match np_argmax (flatten gender_pred) with
      | inl e => handled e w [EvPredictGender X_mfcc]
      | inr idx =>
          if idx =? 1 then
            age_stage E file_path X_mfcc
              (log w [EvPredictGender X_mfcc; EvPrint "[INFO] Gender: male"])
          else
            (inr "🚫 Rejected: Female voice detected.",
             log w [EvPredictGender X_mfcc; EvPrint "[INFO] Gender: female"])
      end
  end.

(** A cell of [log_spec] in [power_to_db], for the reference [ref_value]. *)
Definition db_of (ref_value x : R) : R :=
  (10 * log10 (Rmax amin x) - 10 * log10 (Rmax amin ref_value))%R.

(** ** Reading a trace *)

Definition is_load (ev : event) : bool :=
  match ev with EvLoad _ => true | _ => false end.

Definition is_mfcc (ev : event) : bool :=
  match ev with EvMfcc _ => true | _ => false end.

Definition is_melspectrogram (ev : event) : bool :=
  match ev with EvMelspectrogram _ => true | _ => false end.

Definition is_predict_emotion (ev : event) : bool :=
  match ev with EvPredictEmotion _ => true | _ => false end.

Definition count_events (f : event -> bool) (evs : list event) : nat :=
  length (filter f evs).

(** The events of a run that took the world [w] to the world [w']. *)
Definition new_events (w w' : World) : list event :=
  skipn (length (trace w)) (trace w').

(** The three shapes of the text [analyze_audio] returns. *)
Definition is_error (s : string) : bool := String.prefix "❌ Error: " s.
Definition is_rejected (s : string) : bool := String.prefix "🚫 Rejected: " s.
Definition is_detected (s : string) : bool :=
  String.prefix "✅ Detected Emotion: " s.

(** Both gates pass in the run from the world [w]: the coefficient tensor
    [mfcc_seq] is extracted, leaving the world [w1], the gender model
    decides index 1 (male) and the age model decides index 1 (senior). *)
Definition gates_pass (E : Externals) (file_path : string) (w : World)
    (mfcc_seq : matrix) (w1 : World) : Prop :=
  extract_mfcc_sequence E file_path 160 w = (inr (Some mfcc_seq), w1) /\
  (exists gender_pred,
      gender_model_predict E [mfcc_seq] = inr gender_pred /\
      np_argmax (flatten gender_pred) = inr 1) /\
  (exists age_pred,
      age_model_predict E [mfcc_seq] = inr age_pred /\
      np_argmax (flatten age_pred) = inr 1).

(** The world in which the emotion stage starts when both gates passed in
    the world [w1] with the coefficient tensor [mfcc_seq]. *)
Definition after_gates (w1 : World) (mfcc_seq : matrix) : World :=
  log w1 [EvPredictGender [mfcc_seq]; EvPrint "[INFO] Gender: male";
          EvPredictAge [mfcc_seq]; EvPrint "[INFO] Age Group: senior"].

(** ** Test doubles

    Stand-ins for the libraries and the models: the file system is the
    function [files], the cepstral and the mel analysis make one frame per
    sample and repeat it on every row, the three models answer with fixed
    distributions, and the label table is the list [labels]. *)

Definition mock_inverse_transform (labels : list string) (idx : nat)
  : result string :=
  match nth_error labels idx with
  | Some label => inr label
  | None => inl (Exception "y contains previously unseen labels")
  end.

Definition mock_externals (files : nat -> string -> result signal)
    (gender_out age_out emotion_out : result matrix) (labels : list string)
  : Externals :=
  {| librosa_load := files;
     librosa_mfcc := fun y n => inr (repeat y n);
     librosa_melspectrogram := fun y n => inr (repeat y n);
     gender_model_predict := fun _ => gender_out;
     age_model_predict := fun _ => age_out;
     emotion_model_predict := fun _ => emotion_out;
     inverse_transform := mock_inverse_transform labels |}.

(** A file system with the one file ["voice.wav"], decoded to [y]. *)
Definition one_file (y : signal) : nat -> string -> result signal :=
  fun _ path =>
    if String.eqb path "voice.wav" then inr y
    else inl (Exception "No such file or directory").

(** A file ["voice.wav"] that is overwritten after its first decoding. *)
Definition changing_file (y0 y1 : signal) : nat -> string -> result signal :=
  fun k path =>
    if String.eqb path "voice.wav" then inr (if k =? 0 then y0 else y1)
    else inl (Exception "No such file or directory").

Definition emotion_labels : list string := ["angry"; "fear"; "happy"; "sad"].

Definition w0 : World := mkWorld 0 [].

(** A recording that is quiet for its first 160 frames and loud in the
    161st. *)
Definition quiet_then_loud : signal := repeat 1%R 160 ++ [10%R].

(** The recordings and the models of the examples. *)
Definition three_samples : signal := [1; 2; 3]%R.
Definition two_samples : signal := [4; 5]%R.

Definition class_0 : result matrix := inr [[1; 0]%R].
Definition class_1 : result matrix := inr [[0; 1]%R].
Definition class_2_of_4 : result matrix := inr [[0; 0; 1; 0]%R].

(** The gender model decides index 0. *)
Definition mock_female : Externals :=
  mock_externals (one_file three_samples) class_0 class_1 class_2_of_4
    emotion_labels.

(** The gender model decides index 1 and the age model index 0. *)
Definition mock_junior : Externals :=
  mock_externals (one_file three_samples) class_1 class_0 class_2_of_4
    emotion_labels.

(** Both gates pass and the emotion model decides index 2. *)
Definition mock_senior_male : Externals :=
  mock_externals (one_file three_samples) class_1 class_1 class_2_of_4
    emotion_labels.

(** Both gates pass and the file changes after its first decoding. *)
Definition mock_changing : Externals :=
  mock_externals (changing_file three_samples two_samples)
    class_1 class_1 class_2_of_4 emotion_labels.

(** Both gates pass on [quiet_then_loud]. *)
Definition mock_quiet_then_loud : Externals :=
  mock_externals (one_file quiet_then_loud) class_1 class_1 class_2_of_4
    emotion_labels.

(** ** The window

    [browse_file] is the command of the button.  Of the window it touches
    only [result_label]: its text and its colour.  [redraws] lists what
    [root.update_idletasks()] has put on the screen before the command
    returns to the main loop. *)

Record Gui : Type := mkGui {
  label_text : string;
  label_fg : string;
  redraws : list (string * string)
}.

(** [result_label.config(text=text, fg=fg)]. *)
Definition label_config (text fg : string) (g : Gui) : Gui :=
  mkGui text fg (redraws g).

(** [root.update_idletasks()]. *)
Definition update_idletasks (g : Gui) : Gui :=
  mkGui (label_text g) (label_fg g)
        (redraws g ++ [(label_text g, label_fg g)]).

(** [needle in hay] for two texts. *)
Fixpoint contains (needle hay : string) : bool :=
  String.prefix needle hay
  || match hay with
     | EmptyString => false
     | String _ rest => contains needle rest
     end.

(** [chosen] is what [filedialog.askopenfilename] returns: the path that
    was picked, or the empty text when the dialog is cancelled. *)
Definition browse_file (E : Externals) (chosen : string) (w : World) (g : Gui)
  : result unit * (World * Gui) :=
  let file_path := chosen in
  match file_path with
  | EmptyString => (inr tt, (w, g))
  | String _ _ =>
      let g := label_config "🔄 Processing..." "orange" g in
      let g := update_idletasks g in
      match analyze_audio E file_path w with
      | (inl e, w') => (inl e, (w', g))
      | (inr result, w') =>
          let g :=
            label_config result
              (if contains "✅" result then "green" else "red") g in
          (inr tt, (w', g))
      end
  end.

(** ** The shapes of a run

    The text and the events of a run of [analyze_audio] on [file_path], one
    constructor for each way the run can end. *)

Definition is_predict (ev : event) : bool :=
  match ev with
  | EvPredictGender _ | EvPredictAge _ | EvPredictEmotion _ => true
  | _ => false
  end.

Definition is_print (ev : event) : bool :=
  match ev with EvPrint _ => true | _ => false end.

(** The events up to the decision that both gates pass. *)
Definition gate_events (file_path : string) (y : signal) (X : tensor3)
  : list event :=
  [EvLoad file_path; EvMfcc y; EvPredictGender X;
   EvPrint "[INFO] Gender: male"; EvPredictAge X;
   EvPrint "[INFO] Age Group: senior"].

Inductive outcome (file_path : string) : string -> list event -> Prop :=
| OutNoCoefficients pre msg :
    pre = [] \/ (exists y, pre = [EvMfcc y]) ->
    outcome file_path "❌ Error: Could not extract MFCC sequence."
      (EvLoad file_path :: pre
       ++ [EvPrint ("[ERROR] MFCC extraction failed: " ++ msg)%string])
| OutGenderError y X msg :
    outcome file_path ("❌ Error: " ++ msg)%string
      [EvLoad file_path; EvMfcc y; EvPredictGender X;
       EvPrint ("[ERROR] analyze_audio(): " ++ msg)%string]
| OutFemale y X :
    outcome file_path "🚫 Rejected: Female voice detected."
      [EvLoad file_path; EvMfcc y; EvPredictGender X;
       EvPrint "[INFO] Gender: female"]
| OutAgeError y X msg :
    outcome file_path ("❌ Error: " ++ msg)%string
      [EvLoad file_path; EvMfcc y; EvPredictGender X;
       EvPrint "[INFO] Gender: male"; EvPredictAge X;
       EvPrint ("[ERROR] analyze_audio(): " ++ msg)%string]
| OutNotSenior y X :
    outcome file_path "🚫 Rejected: Not a senior (under 60)."
      [EvLoad file_path; EvMfcc y; EvPredictGender X;
       EvPrint "[INFO] Gender: male"; EvPredictAge X;
       EvPrint "[INFO] Age Group: non-senior"]
| OutNoSpectrogram y X pre msg :
    pre = [] \/ (exists y1, pre = [EvMelspectrogram y1]) ->
    outcome file_path "❌ Error: Could not extract Mel features."
      (gate_events file_path y X
       ++ EvLoad file_path :: pre
       ++ [EvPrint ("[ERROR] Mel feature extraction failed: " ++ msg)%string])
| OutEmotionError y X y1 Y pre msg :
    pre = [] \/ (exists idx, pre = [EvInverseTransform idx]) ->
    outcome file_path ("❌ Error: " ++ msg)%string
      (gate_events file_path y X
       ++ [EvLoad file_path; EvMelspectrogram y1; EvPredictEmotion Y]
       ++ pre ++ [EvPrint ("[ERROR] analyze_audio(): " ++ msg)%string])
| OutDetected y X y1 Y idx label :
    outcome file_path ("✅ Detected Emotion: " ++ label)%string
      (gate_events file_path y X
       ++ [EvLoad file_path; EvMelspectrogram y1; EvPredictEmotion Y;
           EvInverseTransform idx;
           EvPrint ("[INFO] Emotion: " ++ label)%string]).

(** The gender model raises an exception whose message is a check mark. *)
Definition mock_misleading : Externals :=
  mock_externals (one_file three_samples) (inl (Exception "✅")) class_1
    class_2_of_4 emotion_labels.

(** The label before any file was picked. *)
Definition blank_label : Gui := mkGui "" "" [].

(** A recording that starts like [three_samples]. *)
Definition three_samples_b : signal := [1; 2; 7]%R.

(** The file is decoded to [y0] first and to [y1] afterwards. *)
Definition mock_two_takes (y0 y1 : signal) : Externals :=
  mock_externals (changing_file y0 y1) class_1 class_1 class_2_of_4
    emotion_labels.

(** The gender model gives the same value to both classes. *)
Definition mock_tie : Externals :=
  mock_externals (one_file three_samples) (inr [[1; 1]%R]) class_1
    class_2_of_4 emotion_labels.

(** ** [max_len] as a Python integer

    [max_len] is a keyword argument and may be any integer.  The versions
    of the extractors above take it as a natural number, which is what
    [analyze_audio] passes; the versions below take any integer.  When
    [max_len] is negative the comparison [shape[1] < max_len] fails and the
    slice [m[:, :max_len]] counts its stop from the end of the axis. *)

(** The stop of the slice [[:k]] on an axis of length [n]. *)
Definition slice_stop (n : nat) (k : Z) : nat :=
  if (k <? 0)%Z then Z.to_nat (Z.of_nat n + k) else Z.to_nat k.

(** [m[:, :max_len]] for an integer [max_len]. *)
Definition slice_cols_int (m : matrix) (max_len : Z) : matrix :=
  map (fun row => firstn (slice_stop (length row) max_len) row) m.

(** The branch that the two extractors share, for an integer [max_len]. *)
Definition fix_length_int (m : matrix) (max_len : Z) : matrix :=
  if (Z.of_nat (ncols m) <? max_len)%Z then
    let pad_width := (max_len - Z.of_nat (ncols m))%Z in
    np_pad_right m (Z.to_nat pad_width)
  else
    slice_cols_int m max_len.

Definition extract_mfcc_sequence_int (E : Externals) (file_path : string)
    (max_len : Z) : M (option matrix) :=
  try_except
    (y <- load E file_path ;;
     mfcc <- call (EvMfcc y) (librosa_mfcc E y 13) ;;
     let mfcc :=
       if (Z.of_nat (ncols mfcc) <? max_len)%Z then
         let pad_width := (max_len - Z.of_nat (ncols mfcc))%Z in
         np_pad_right mfcc (Z.to_nat pad_width)
       else
         slice_cols_int mfcc max_len in
     ret (Some (transpose mfcc)))
    (fun e =>
       print ("[ERROR] MFCC extraction failed: " ++ exn_msg e)%string ;;
       ret None).

Definition extract_mel_features_int (E : Externals) (file_path : string)
    (max_len : Z) : M (option tensor3) :=
  try_except
    (y <- load E file_path ;;
     mel <- call (EvMelspectrogram y) (librosa_melspectrogram E y 128) ;;
     mel_db <- lift (power_to_db mel) ;;
     let mel_db :=
       if (Z.of_nat (ncols mel_db) <? max_len)%Z then
         let pad_width := (max_len - Z.of_nat (ncols mel_db))%Z in
         np_pad_right mel_db (Z.to_nat pad_width)
       else
         slice_cols_int mel_db max_len in
     let mel_db := newaxis_last mel_db in
     ret (Some mel_db))
    (fun e =>
       print ("[ERROR] Mel feature extraction failed: " ++ exn_msg e)%string ;;
       ret None).

(** * Properties *)

(** ** Shapes *)

Section Shapes.

Lemma has_shape_ncols r c m :
  has_shape r c m -> 0 < r -> ncols m = c.
Proof.
  intros [Hlen Hrows] Hr. destruct m as [|row m']; simpl in *.
  - lia.
  - now inversion Hrows.
Qed.

Lemma has_shape_nth r c m i :
  has_shape r c m -> i < r -> length (nth i m []) = c.
Proof.
  intros [Hlen Hrows] Hi. rewrite Forall_forall in Hrows.
  apply Hrows, nth_In. lia.
Qed.

Lemma np_pad_right_shape r c m pad_width :
  has_shape r c m -> has_shape r (c + pad_width) (np_pad_right m pad_width).
Proof.
  intros [Hlen Hrows]. split.
  - unfold np_pad_right. now rewrite length_map.
  - unfold np_pad_right. apply Forall_map.
    eapply Forall_impl; [|exact Hrows]. intros row Hrow. cbv beta in *.
    now rewrite length_app, repeat_length, Hrow.
Qed.

Lemma slice_cols_shape r c m max_len :
  has_shape r c m -> has_shape r (min max_len c) (slice_cols m max_len).
Proof.
  intros [Hlen Hrows]. split.
  - unfold slice_cols. now rewrite length_map.
  - unfold slice_cols. apply Forall_map.
    eapply Forall_impl; [|exact Hrows]. intros row Hrow. cbv beta in *.
    now rewrite length_firstn, Hrow.
Qed.

Lemma fix_length_shape r c m max_len :
  has_shape r c m -> 0 < r -> has_shape r max_len (fix_length m max_len).
Proof.
  intros Hm Hr. unfold fix_length.
  rewrite (has_shape_ncols r c m Hm Hr).
  destruct (Nat.ltb_spec c max_len) as [Hlt|Hge].
  - replace max_len with (c + (max_len - c)) at 1 by lia.
    now apply np_pad_right_shape.
  - replace max_len with (min max_len c) at 1 by lia.
    now apply slice_cols_shape.
Qed.

Lemma length_col m j : length (col m j) = length m.
Proof. unfold col. now rewrite length_map. Qed.

Lemma transpose_shape r c m :
  has_shape r c m -> 0 < r -> has_shape c r (transpose m).
Proof.
  intros Hm Hr. unfold transpose.
  rewrite (has_shape_ncols r c m Hm Hr). split.
  - now rewrite length_map, length_seq.
  - apply Forall_map, Forall_forall. intros j _.
    rewrite length_col. apply Hm.
Qed.

Lemma nth_error_transpose m i :
  i < ncols m -> nth_error (transpose m) i = Some (col m i).
Proof.
  intros Hi. unfold transpose.
  rewrite nth_error_map, nth_error_seq.
  destruct (Nat.ltb_spec i (ncols m)); [reflexivity | lia].
Qed.

Lemma newaxis_last_shape r c m :
  has_shape r c m -> has_shape3 r c 1 (newaxis_last m).
Proof.
  intros [Hlen Hrows]. unfold newaxis_last. split.
  - now rewrite length_map.
  - apply Forall_map. eapply Forall_impl; [|exact Hrows].
    intros row Hrow. cbv beta in *. split.
    + now rewrite length_map.
    + apply Forall_map, Forall_forall. reflexivity.
Qed.

(** The entry of the padded or truncated array at a kept position. *)
Lemma fix_length_entry r c m max_len i j :
  has_shape r c m -> i < r -> j < max_len ->
  nth j (nth i (fix_length m max_len) []) 0%R
  = if j <? c then nth j (nth i m []) 0%R else 0%R.
Proof.
  intros Hm Hi Hj.
  assert (Hr : 0 < r) by lia.
  assert (Hrow : length (nth i m []) = c) by (eapply has_shape_nth; eauto).
  assert (Hlen : length m = r) by apply Hm.
  unfold fix_length. rewrite (has_shape_ncols r c m Hm Hr).
  destruct (Nat.ltb_spec c max_len) as [Hlt|Hge].
  - unfold np_pad_right.
    rewrite (nth_indep _ [] ((fun row => row ++ repeat 0%R (max_len - c)) []))
      by (rewrite length_map; lia).
    rewrite (map_nth (fun row => row ++ repeat 0%R (max_len - c))).
    destruct (Nat.ltb_spec j c) as [Hjc|Hjc].
    + rewrite app_nth1 by lia. reflexivity.
    + rewrite app_nth2 by lia. apply nth_repeat.
  - unfold slice_cols.
    rewrite (nth_indep _ [] (firstn max_len []))
      by (rewrite length_map; lia).
    rewrite (map_nth (firstn max_len)).
    destruct (Nat.ltb_spec j c) as [Hjc|Hjc]; [|lia].
    rewrite nth_firstn.
    destruct (Nat.ltb_spec j max_len); [reflexivity | lia].
Qed.

(** A whole frame (column) of the padded or truncated array. *)
Lemma fix_length_col r c m max_len j :
  has_shape r c m -> 0 < r -> j < max_len ->
  col (fix_length m max_len) j
  = if j <? c then col m j else repeat 0%R r.
Proof.
  intros Hm Hr Hj.
  destruct Hm as [Hlen Hrows]. rewrite Forall_forall in Hrows.
  unfold fix_length.
  rewrite (has_shape_ncols r c m) by (try split; auto; now apply Forall_forall).
  unfold col, np_pad_right, slice_cols.
  destruct (Nat.ltb_spec c max_len) as [Hlt|Hge]; rewrite map_map.
  - destruct (Nat.ltb_spec j c) as [Hjc|Hjc].
    + apply map_ext_in. intros row Hin.
      apply app_nth1. rewrite (Hrows row Hin). exact Hjc.
    + rewrite <- Hlen, <- map_const.
      apply map_ext_in. intros row Hin.
      rewrite app_nth2 by (rewrite (Hrows row Hin); lia).
      apply nth_repeat.
  - destruct (Nat.ltb_spec j c) as [Hjc|Hjc]; [|lia].
    apply map_ext_in. intros row Hin.
    rewrite nth_firstn.
    destruct (Nat.ltb_spec j max_len); [reflexivity | lia].
Qed.

End Shapes.

(** ** What a run of each extractor does *)

Section Runs.

Variable E : Externals.

Lemma extract_mfcc_sequence_run file_path max_len w :
  extract_mfcc_sequence E file_path max_len w =
  match librosa_load E (loads w) file_path with
  | inl e =>
      (inr None,
       after_load w file_path
         [EvPrint ("[ERROR] MFCC extraction failed: " ++ exn_msg e)%string])
  | inr y =>
      match librosa_mfcc E y 13 with
      | inl e =>
          (inr None,
           after_load w file_path
             [EvMfcc y;
              EvPrint ("[ERROR] MFCC extraction failed: " ++ exn_msg e)%string])
      | inr mfcc =>
          (inr (Some (transpose (fix_length mfcc max_len))),
           after_load w file_path [EvMfcc y])
      end
  end.
Proof.
  unfold extract_mfcc_sequence, try_except, bind, load, call, print, emit,
    lift, ret, after_load.
  destruct (librosa_load E (loads w) file_path) as [e|y]; cbn.
  - now rewrite <- app_assoc.
  - destruct (librosa_mfcc E y 13) as [e|mfcc]; cbn;
      now rewrite <- !app_assoc.
Qed.

Lemma extract_mel_features_run file_path max_len w :
  extract_mel_features E file_path max_len w =
  match librosa_load E (loads w) file_path with
  | inl e =>
      (inr None,
       after_load w file_path
         [EvPrint ("[ERROR] Mel feature extraction failed: "
                   ++ exn_msg e)%string])
  | inr y =>
      match librosa_melspectrogram E y 128 with
      | inl e =>
          (inr None,
           after_load w file_path
             [EvMelspectrogram y;
              EvPrint ("[ERROR] Mel feature extraction failed: "
                       ++ exn_msg e)%string])
      | inr mel =>
          match power_to_db mel with
          | inl e =>
              (inr None,
               after_load w file_path
                 [EvMelspectrogram y;
                  EvPrint ("[ERROR] Mel feature extraction failed: "
                           ++ exn_msg e)%string])
          | inr mel_db =>
              (inr (Some (newaxis_last (fix_length mel_db max_len))),
               after_load w file_path [EvMelspectrogram y])
          end
      end
  end.
Proof.
  unfold extract_mel_features, try_except, bind, load, call, print, emit,
    lift, ret, after_load.
  destruct (librosa_load E (loads w) file_path) as [e|y]; cbn.
  - now rewrite <- app_assoc.
  - destruct (librosa_melspectrogram E y 128) as [e|mel]; cbn.
    + now rewrite <- !app_assoc.
    + destruct (power_to_db mel) as [e|mel_db]; cbn;
        now rewrite <- !app_assoc.
Qed.

(** Neither extractor lets an exception out. *)
Lemma extract_mfcc_sequence_total file_path max_len w :
  exists r w', extract_mfcc_sequence E file_path max_len w = (inr r, w').
Proof.
  rewrite extract_mfcc_sequence_run.
  destruct (librosa_load E (loads w) file_path) as [e|y]; eauto.
  destruct (librosa_mfcc E y 13) as [e|mfcc]; eauto.
Qed.

Lemma extract_mel_features_total file_path max_len w :
  exists r w', extract_mel_features E file_path max_len w = (inr r, w').
Proof.
  rewrite extract_mel_features_run.
  destruct (librosa_load E (loads w) file_path) as [e|y]; eauto.
  destruct (librosa_melspectrogram E y 128) as [e|mel]; eauto.
  destruct (power_to_db mel) as [e|mel_db]; eauto.
Qed.

End Runs.

Section Pipeline.

Variable E : Externals.

Lemma log_log w evs1 evs2 : log (log w evs1) evs2 = log w (evs1 ++ evs2).
Proof. unfold log. cbn. now rewrite app_assoc. Qed.

Lemma log_nil w : log w [] = w.
Proof. unfold log. rewrite app_nil_r. now destruct w. Qed.

(** [analyze_audio], stage by stage, with the worlds written out. *)
Lemma analyze_audio_run file_path w :
  analyze_audio E file_path w =
  match extract_mfcc_sequence E file_path 160 w with
  | (inl e, w1) => handled e w1 []
  | (inr None, w1) => (inr "❌ Error: Could not extract MFCC sequence.", w1)
  | (inr (Some mfcc_seq), w1) => gender_stage E file_path [mfcc_seq] w1
  end.
Proof.
  unfold analyze_audio, try_except at 1, bind at 1.
  destruct (extract_mfcc_sequence E file_path 160 w) as [[e|[mfcc_seq|]] w1].
  - reflexivity.
  - unfold gender_stage, age_stage, emotion_stage, handled, log,
      call, print, emit, lift, ret, bind, expand_dims0.
    cbn.
    destruct (gender_model_predict E [mfcc_seq]) as [e|gp]; cbn.
    { now rewrite <- !app_assoc. }
    destruct (np_argmax (flatten gp)) as [e|gi]; cbn.
    { now rewrite <- !app_assoc. }
    destruct (gi =? 1); cbn; [|now rewrite <- !app_assoc].
    destruct (age_model_predict E [mfcc_seq]) as [e|ap]; cbn.
    { now rewrite <- !app_assoc. }
    destruct (np_argmax (flatten ap)) as [e|ai]; cbn.
    { now rewrite <- !app_assoc. }
    destruct (ai =? 1); cbn; [|now rewrite <- !app_assoc].
    rewrite <- !app_assoc. cbn.
    match goal with
    | |- context [extract_mel_features E file_path 160 ?w'] =>
        destruct (extract_mel_features E file_path 160 w')
          as [[e|[mel|]] w2]
    end; cbn; try reflexivity.
    destruct (emotion_model_predict E [mel]) as [e|ep]; cbn.
    { now rewrite <- !app_assoc. }
    destruct (np_argmax (flatten ep)) as [e|ei]; cbn.
    { now rewrite <- !app_assoc. }
    destruct (inverse_transform E ei) as [e|label]; cbn;
      now rewrite <- !app_assoc.
  - reflexivity.
Qed.

End Pipeline.

(** ** Maxima and decibels *)

Section Decibels.

Open Scope R_scope.

Lemma max_from_ge best l : best <= max_from best l.
Proof.
  revert best. induction l as [|x t IH]; intros best; simpl.
  - lra.
  - eapply Rle_trans; [apply (Rmax_l best x) | apply IH].
Qed.

Lemma max_from_upper best l x : In x l -> x <= max_from best l.
Proof.
  revert best. induction l as [|a t IH]; intros best Hin; simpl in *.
  - contradiction.
  - destruct Hin as [->|Hin].
    + eapply Rle_trans; [apply (Rmax_r best x) | apply max_from_ge].
    + now apply IH.
Qed.

Lemma max_from_in best l : max_from best l = best \/ In (max_from best l) l.
Proof.
  revert best. induction l as [|a t IH]; intros best; simpl.
  - now left.
  - destruct (IH (Rmax best a)) as [Heq|Hin].
    + rewrite Heq. unfold Rmax. destruct (Rle_dec best a); auto.
    + auto.
Qed.

Lemma np_max_in l m : np_max l = inr m -> In m l.
Proof.
  destruct l as [|x t]; simpl; [discriminate|].
  intros [= <-]. destruct (max_from_in x t); auto.
Qed.

Lemma np_max_upper l m x : np_max l = inr m -> In x l -> x <= m.
Proof.
  destruct l as [|a t]; simpl; [discriminate|].
  intros [= <-] [->|Hin].
  - apply max_from_ge.
  - now apply max_from_upper.
Qed.

Lemma np_max_defined l : l <> [] -> exists m, np_max l = inr m.
Proof. destruct l; [congruence | simpl; eauto]. Qed.

(** The maximum of a list bounded by [c] that contains [c]. *)
Lemma np_max_attained l c :
  In c l -> (forall x, In x l -> x <= c) -> np_max l = inr c.
Proof.
  intros Hin Hle.
  destruct (np_max_defined l) as [m Hm].
  { intros ->. contradiction. }
  rewrite Hm. f_equal. apply Rle_antisym.
  - apply Hle. eapply np_max_in; eauto.
  - eapply np_max_upper; eauto.
Qed.

Lemma amin_pos : 0 < amin.
Proof. unfold amin. lra. Qed.

Lemma ln10_pos : 0 < ln 10.
Proof. rewrite <- ln_1. apply ln_increasing; lra. Qed.

Lemma log10_monotone x y : 0 < x -> x <= y -> log10 x <= log10 y.
Proof.
  intros Hx [Hlt| ->]; [|lra].
  unfold log10. apply Rmult_le_compat_r.
  - left. apply Rinv_0_lt_compat, ln10_pos.
  - left. now apply ln_increasing.
Qed.

Lemma db_of_nonpos ref_value x : x <= ref_value -> db_of ref_value x <= 0.
Proof.
  intros Hle. unfold db_of.
  assert (H : log10 (Rmax amin x) <= log10 (Rmax amin ref_value)).
  { apply log10_monotone.
    - eapply Rlt_le_trans; [apply amin_pos | apply Rmax_l].
    - now apply Rle_max_compat_l. }
  lra.
Qed.

Lemma db_of_ref ref_value : db_of ref_value ref_value = 0.
Proof. unfold db_of. lra. Qed.

Lemma power_to_db_unfold S D :
  power_to_db S = inr D ->
  exists ref_value mx,
    np_max (flatten S) = inr ref_value /\
    np_max (map (db_of ref_value) (flatten S)) = inr mx /\
    D = map (map (fun x => Rmax (db_of ref_value x) (mx - top_db))) S.
Proof.
  unfold power_to_db.
  destruct (np_max (flatten S)) as [e|ref_value]; [discriminate|].
  unfold flatten at 1. rewrite <- concat_map.
  fold (db_of ref_value). fold (flatten S).
  change (fun x => 10 * log10 (Rmax amin x) - 10 * log10 (Rmax amin ref_value))
    with (db_of ref_value).
  destruct (np_max (map (db_of ref_value) (flatten S))) as [e|mx] eqn:Hmx;
    [discriminate|].
  intros [= <-]. exists ref_value, mx. split; [reflexivity|]. split; [exact Hmx|].
  rewrite map_map. apply map_ext. intros row. now rewrite map_map.
Qed.

(** With the reference at the maximum, the largest cell of [log_spec] is
    [0], so the [top_db] floor is [-80]. *)
Lemma power_to_db_cells S D :
  power_to_db S = inr D ->
  exists ref_value,
    np_max (flatten S) = inr ref_value /\
    D = map (map (fun x => Rmax (db_of ref_value x) (0 - top_db))) S.
Proof.
  intros HD. destruct (power_to_db_unfold S D HD) as (ref & mx & Href & Hmx & ->).
  exists ref. split; [exact Href|].
  assert (Hmx0 : mx = 0).
  { assert (H : np_max (map (db_of ref) (flatten S)) = inr 0).
    { apply np_max_attained.
      - rewrite <- (db_of_ref ref). apply in_map. eapply np_max_in; eauto.
      - intros v Hv. apply in_map_iff in Hv as (x & <- & Hx).
        apply db_of_nonpos. eapply np_max_upper; eauto. }
    congruence. }
  now rewrite Hmx0.
Qed.

Lemma power_to_db_shape r c S D :
  power_to_db S = inr D -> has_shape r c S -> has_shape r c D.
Proof.
  intros HD [Hlen Hrows].
  destruct (power_to_db_cells S D HD) as (ref & _ & ->). split.
  - now rewrite length_map.
  - apply Forall_map. eapply Forall_impl; [|exact Hrows].
    intros row Hrow. cbv beta in *. now rewrite length_map.
Qed.

(** Every decibel value is at most [0], and [0] is among them. *)
Lemma power_to_db_nonpos S D v :
  power_to_db S = inr D -> In v (flatten D) -> v <= 0.
Proof.
  intros HD Hv.
  destruct (power_to_db_cells S D HD) as (ref & Href & ->).
  unfold flatten in Hv. rewrite <- concat_map in Hv.
  apply in_map_iff in Hv as (x & <- & Hx).
  apply Rmax_lub.
  - apply db_of_nonpos. eapply np_max_upper; eauto.
  - unfold top_db. lra.
Qed.

Lemma power_to_db_zero S D :
  power_to_db S = inr D -> In 0 (flatten D).
Proof.
  intros HD.
  destruct (power_to_db_cells S D HD) as (ref & Href & ->).
  unfold flatten. rewrite <- concat_map.
  apply in_map_iff. exists ref. split.
  - rewrite db_of_ref. apply Rmax_left. unfold top_db. lra.
  - eapply np_max_in; eauto.
Qed.

Lemma power_to_db_defined S :
  flatten S <> [] -> exists D, power_to_db S = inr D.
Proof.
  intros Hne. unfold power_to_db.
  destruct (np_max_defined _ Hne) as [ref_value ->].
  unfold flatten at 1. rewrite <- concat_map. fold (flatten S).
  match goal with
  | |- context [np_max (map ?f (flatten S))] =>
      destruct (np_max_defined (map f (flatten S))) as [mx ->]
  end.
  - destruct (flatten S); [congruence | discriminate].
  - eauto.
Qed.

End Decibels.

(** ** The test doubles honour librosa's shapes *)

Lemma repeat_has_shape (y : signal) n : has_shape n (length y) (repeat y n).
Proof.
  split.
  - apply repeat_length.
  - apply Forall_forall. intros row Hin. now rewrite (repeat_spec _ _ _ Hin).
Qed.

Lemma mock_externals_shapes files g a e labels :
  LibrosaShapes (mock_externals files g a e labels).
Proof.
  split; cbn; intros y n m [= <-]; exists (length y); apply repeat_has_shape.
Qed.

(** * The fixed shapes of the two features *)

Section FixedShapes.

Variable E : Externals.
Hypothesis shapes : LibrosaShapes E.

(** A successful run of [extract_mfcc_sequence], taken apart. *)
Lemma extract_mfcc_sequence_some file_path max_len w t w' :
  extract_mfcc_sequence E file_path max_len w = (inr (Some t), w') ->
  exists y mfcc frames,
    librosa_load E (loads w) file_path = inr y /\
    librosa_mfcc E y 13 = inr mfcc /\
    has_shape 13 frames mfcc /\
    t = transpose (fix_length mfcc max_len) /\
    w' = after_load w file_path [EvMfcc y].
Proof.
  rewrite extract_mfcc_sequence_run.
  destruct (librosa_load E (loads w) file_path) as [e|y]; [discriminate|].
  destruct (librosa_mfcc E y 13) as [e|mfcc] eqn:Hmfcc; [discriminate|].
  intros [= <- <-].
  destruct (mfcc_shape E shapes y 13 mfcc Hmfcc) as [frames Hshape].
  exists y, mfcc, frames. auto.
Qed.

(** A successful run of [extract_mel_features], taken apart. *)
Lemma extract_mel_features_some file_path max_len w t w' :
  extract_mel_features E file_path max_len w = (inr (Some t), w') ->
  exists y mel frames mel_db,
    librosa_load E (loads w) file_path = inr y /\
    librosa_melspectrogram E y 128 = inr mel /\
    has_shape 128 frames mel /\
    power_to_db mel = inr mel_db /\
    has_shape 128 frames mel_db /\
    t = newaxis_last (fix_length mel_db max_len) /\
    w' = after_load w file_path [EvMelspectrogram y].
Proof.
  rewrite extract_mel_features_run.
  destruct (librosa_load E (loads w) file_path) as [e|y]; [discriminate|].
  destruct (librosa_melspectrogram E y 128) as [e|mel] eqn:Hmel;
    [discriminate|].
  destruct (power_to_db mel) as [e|mel_db] eqn:Hdb; [discriminate|].
  intros [= <- <-].
  destruct (melspectrogram_shape E shapes y 128 mel Hmel) as [frames Hshape].
  exists y, mel, frames, mel_db.
  pose proof (power_to_db_shape _ _ _ _ Hdb Hshape) as Hshape'.
  tauto.
Qed.

Lemma mfcc_tensor_shape mfcc frames :
  has_shape 13 frames mfcc ->
  has_shape 160 13 (transpose (fix_length mfcc 160)).
Proof.
  intros Hshape. apply transpose_shape; [|lia].
  eapply fix_length_shape; [exact Hshape | lia].
Qed.

Lemma mel_tensor_shape mel_db frames :
  has_shape 128 frames mel_db ->
  has_shape3 128 160 1 (newaxis_last (fix_length mel_db 160)).
Proof.
  intros Hshape. apply newaxis_last_shape.
  eapply fix_length_shape; [exact Hshape | lia].
Qed.

(** C1: a successful [extract_mfcc_sequence] with [max_len = 160] returns a
    time-major tensor of exactly 160 frames of 13 coefficients; frame [i] is
    frame [i] of the cepstral analysis when the analysis has that many
    frames, and is all zeros otherwise.  So a shorter analysis is followed
    by zero frames and of a longer one only the first 160 frames are kept. *)
Theorem C1_mfcc_time_dimension file_path w t w' :
  extract_mfcc_sequence E file_path 160 w = (inr (Some t), w') ->
  exists y mfcc frames,
    librosa_load E (loads w) file_path = inr y /\
    librosa_mfcc E y 13 = inr mfcc /\
    has_shape 13 frames mfcc /\
    has_shape 160 13 t /\
    forall i, i < 160 ->
      nth_error t i
      = Some (if i <? frames then col mfcc i else repeat 0%R 13).
Proof.
  intros Hrun.
  destruct (extract_mfcc_sequence_some _ _ _ _ _ Hrun)
    as (y & mfcc & frames & Hload & Hmfcc & Hshape & -> & _).
  exists y, mfcc, frames.
  split; [exact Hload|]. split; [exact Hmfcc|]. split; [exact Hshape|].
  split.
  - apply (mfcc_tensor_shape mfcc frames Hshape).
  - intros i Hi.
    rewrite nth_error_transpose.
    + f_equal. apply fix_length_col; auto; lia.
    + rewrite (has_shape_ncols 13 160); [exact Hi | | lia].
      eapply fix_length_shape; [exact Hshape | lia].
Qed.

(** C2: a successful [extract_mel_features] with [max_len = 160] returns a
    tensor of shape (128, 160, 1): the decibel values of the 128-band mel
    power spectrogram, padded with trailing zeros or cut to the first 160
    frames, each value in a channel axis of length one. *)
Theorem C2_mel_tensor_shape file_path w t w' :
  extract_mel_features E file_path 160 w = (inr (Some t), w') ->
  exists y mel frames mel_db,
    librosa_load E (loads w) file_path = inr y /\
    librosa_melspectrogram E y 128 = inr mel /\
    has_shape 128 frames mel /\
    power_to_db mel = inr mel_db /\
    has_shape3 128 160 1 t /\
    forall i j, i < 128 -> j < 160 ->
      nth j (nth i t []) []
      = [if j <? frames then nth j (nth i mel_db []) 0%R else 0%R].
Proof.
  intros Hrun.
  destruct (extract_mel_features_some _ _ _ _ _ Hrun)
    as (y & mel & frames & mel_db & Hload & Hmel & Hshape & Hdb & Hshape'
        & -> & _).
  exists y, mel, frames, mel_db.
  split; [exact Hload|]. split; [exact Hmel|]. split; [exact Hshape|].
  split; [exact Hdb|]. split.
  - apply (mel_tensor_shape mel_db frames Hshape').
  - intros i j Hi Hj.
    pose proof (fix_length_shape 128 frames mel_db 160 Hshape' ltac:(lia))
      as Hfix.
    unfold newaxis_last.
    rewrite (nth_indep _ [] (map (fun x => [x]) []))
      by (rewrite length_map; destruct Hfix as [-> _]; exact Hi).
    rewrite (map_nth (map (fun x : R => [x]))).
    rewrite (nth_indep _ [] ((fun x : R => [x]) 0%R))
      by (rewrite length_map, (has_shape_nth 128 160 _ i Hfix Hi); exact Hj).
    rewrite (map_nth (fun x : R => [x])).
    f_equal. eapply fix_length_entry; eauto.
Qed.

End FixedShapes.

(** * The largest value of the spectrogram tensor *)

Section LargestValue.

Open Scope R_scope.

Lemma flatten3_newaxis_last m : flatten3 (newaxis_last m) = flatten m.
Proof.
  unfold flatten3, newaxis_last, flatten.
  induction m as [|row m IH]; simpl; [reflexivity|].
  rewrite concat_app, IH. f_equal.
  clear. induction row as [|x row IH]; simpl; [reflexivity | now rewrite IH].
Qed.

Lemma flatten_length r c m :
  has_shape r c m -> length (flatten m) = (r * c)%nat.
Proof.
  unfold flatten. revert r. induction m as [|row m IH]; intros r [Hlen Hrows].
  - simpl in *. subst r. reflexivity.
  - simpl in Hlen. subst r. apply Forall_cons_iff in Hrows as [Hrow Hrest].
    simpl. rewrite length_app, Hrow, (IH (length m)); [reflexivity|].
    split; auto.
Qed.

Lemma in_flatten_pad m k v :
  In v (flatten (np_pad_right m k)) -> In v (flatten m) \/ v = 0.
Proof.
  unfold flatten, np_pad_right. intros Hin.
  apply in_concat in Hin as (row' & Hrow' & Hv).
  apply in_map_iff in Hrow' as (row & <- & Hrow).
  apply in_app_or in Hv as [Hv|Hv].
  - left. apply in_concat. eauto.
  - right. eapply repeat_spec; eauto.
Qed.

Lemma in_flatten_pad_keeps m k v :
  In v (flatten m) -> In v (flatten (np_pad_right m k)).
Proof.
  unfold flatten, np_pad_right. intros Hin.
  apply in_concat in Hin as (row & Hrow & Hv).
  apply in_concat. exists (row ++ repeat 0 k). split.
  - apply in_map_iff. eauto.
  - apply in_or_app. now left.
Qed.

Lemma in_flatten_slice m k v :
  In v (flatten (slice_cols m k)) -> In v (flatten m).
Proof.
  unfold flatten, slice_cols. intros Hin.
  apply in_concat in Hin as (row' & Hrow' & Hv).
  apply in_map_iff in Hrow' as (row & <- & Hrow).
  apply in_concat. exists row. split; [exact Hrow|].
  rewrite <- (firstn_skipn k row). apply in_or_app. now left.
Qed.

Lemma slice_cols_all r c m k :
  has_shape r c m -> (c <= k)%nat -> slice_cols m k = m.
Proof.
  intros [_ Hrows] Hk. unfold slice_cols.
  rewrite <- (map_id m) at 2. apply map_ext_in. intros row Hin.
  apply firstn_all2. rewrite Forall_forall in Hrows.
  rewrite (Hrows row Hin). exact Hk.
Qed.

Lemma in_flatten_fix_length m max_len v :
  In v (flatten (fix_length m max_len)) -> In v (flatten m) \/ v = 0.
Proof.
  unfold fix_length. destruct (ncols m <? max_len)%nat.
  - apply in_flatten_pad.
  - intros H. left. eapply in_flatten_slice; eauto.
Qed.

(** When no frame is cut off, every value of the array is kept. *)
Lemma in_flatten_fix_length_keeps r c m max_len v :
  has_shape r c m -> (0 < r)%nat -> (c <= max_len)%nat ->
  In v (flatten m) -> In v (flatten (fix_length m max_len)).
Proof.
  intros Hm Hr Hc Hin. unfold fix_length.
  rewrite (has_shape_ncols r c m Hm Hr).
  destruct (Nat.ltb_spec c max_len).
  - now apply in_flatten_pad_keeps.
  - now rewrite (slice_cols_all r c m max_len Hm Hc).
Qed.

Lemma nth_in_flatten r c m i j :
  has_shape r c m -> (i < r)%nat -> (j < c)%nat ->
  In (nth j (nth i m []) 0) (flatten m).
Proof.
  intros Hm Hi Hj. unfold flatten. apply in_concat.
  exists (nth i m []). split.
  - apply nth_In. destruct Hm as [-> _]. exact Hi.
  - apply nth_In. now rewrite (has_shape_nth r c m i Hm Hi).
Qed.

(** The cell that holds the largest power has the decibel value 0. *)
Lemma power_to_db_at_max r c S D i j :
  power_to_db S = inr D -> has_shape r c S -> (i < r)%nat -> (j < c)%nat ->
  np_max (flatten S) = inr (nth j (nth i S []) 0) ->
  nth j (nth i D []) 0 = 0.
Proof.
  intros HD HS Hi Hj Hmax.
  destruct (power_to_db_cells S D HD) as (ref & Href & ->).
  rewrite Hmax in Href. injection Href as <-.
  set (g := fun x => Rmax (db_of (nth j (nth i S []) 0) x) (0 - top_db)).
  rewrite (nth_indep _ [] (map g []))
    by (rewrite length_map; destruct HS as [-> _]; exact Hi).
  rewrite (map_nth (map g)).
  rewrite (nth_indep _ 0 (g 0))
    by (rewrite length_map, (has_shape_nth r c S i HS Hi); exact Hj).
  rewrite (map_nth g). unfold g.
  rewrite db_of_ref. apply Rmax_left. unfold top_db. lra.
Qed.

(** C7, as the code has it: every value of the tensor returned by
    [extract_mel_features] is at most 0, and the largest value is exactly 0
    whenever the mel spectrogram has at most 160 frames, or has its largest
    power in one of the first 160 frames, so that the frame of the reference
    is not cut off after the conversion to decibels. *)
Theorem C7_mel_max_amended (E : Externals) file_path w t w' :
  LibrosaShapes E ->
  extract_mel_features E file_path 160 w = (inr (Some t), w') ->
  exists y mel frames mx,
    librosa_load E (loads w) file_path = inr y /\
    librosa_melspectrogram E y 128 = inr mel /\
    has_shape 128 frames mel /\
    np_max (flatten3 t) = inr mx /\
    mx <= 0 /\
    ((frames <= 160)%nat -> mx = 0) /\
    ((exists i j, (i < 128)%nat /\ (j < frames)%nat /\ (j < 160)%nat /\
                  np_max (flatten mel) = inr (nth j (nth i mel []) 0)) ->
     mx = 0).
Proof.
  intros shapes Hrun.
  destruct (extract_mel_features_some E shapes _ _ _ _ _ Hrun)
    as (y & mel & frames & mel_db & Hload & Hmel & Hshape & Hdb & Hshape'
        & -> & _).
  rewrite flatten3_newaxis_last.
  pose proof (fix_length_shape 128 frames mel_db 160 Hshape' ltac:(lia))
    as Hfix.
  assert (Hall : forall v, In v (flatten (fix_length mel_db 160)) -> v <= 0).
  { intros v Hv. apply in_flatten_fix_length in Hv as [Hv| ->]; [|lra].
    eapply power_to_db_nonpos; eauto. }
  destruct (np_max_defined (flatten (fix_length mel_db 160))) as [mx Hmx].
  { intros Hnil.
    pose proof (flatten_length 128 160 _ Hfix) as Hlen.
    rewrite Hnil in Hlen. simpl in Hlen. lia. }
  assert (Hzero : In 0 (flatten (fix_length mel_db 160)) -> mx = 0).
  { intros Hin.
    assert (H0 : np_max (flatten (fix_length mel_db 160)) = inr 0)
      by (apply np_max_attained; [exact Hin | exact Hall]).
    congruence. }
  exists y, mel, frames, mx.
  split; [exact Hload|]. split; [exact Hmel|]. split; [exact Hshape|].
  split; [exact Hmx|]. split; [|split].
  - apply Hall. eapply np_max_in; eauto.
  - intros Hframes. apply Hzero.
    eapply in_flatten_fix_length_keeps; eauto; [lia|].
    eapply power_to_db_zero; eauto.
  - intros (i & j & Hi & Hjf & Hj & Hmax). apply Hzero.
    rewrite <- (power_to_db_at_max 128 frames mel mel_db i j
                  Hdb Hshape Hi Hjf Hmax).
    replace (nth j (nth i mel_db []) 0)
      with (nth j (nth i (fix_length mel_db 160) []) 0).
    + eapply nth_in_flatten; eauto.
    + rewrite (fix_length_entry 128 frames mel_db 160 i j Hshape' Hi Hj).
      destruct (Nat.ltb_spec j frames); [reflexivity | lia].
Qed.

End LargestValue.

(** * The cascade *)

Section Cascade.

Variable E : Externals.

Lemma new_events_app w n evs :
  new_events w (mkWorld n (trace w ++ evs)) = evs.
Proof.
  unfold new_events. cbn [trace].
  rewrite skipn_app, skipn_all, Nat.sub_diag. reflexivity.
Qed.

(** [analyze_audio] always returns a text. *)
Lemma gender_stage_total file_path X w :
  exists s w', gender_stage E file_path X w = (inr s, w').
Proof.
  unfold gender_stage, age_stage, emotion_stage, handled.
  destruct (gender_model_predict E X) as [e|gp]; eauto.
  destruct (np_argmax (flatten gp)) as [e|gi]; eauto.
  destruct (gi =? 1); eauto.
  destruct (age_model_predict E X) as [e|ap]; eauto.
  destruct (np_argmax (flatten ap)) as [e|ai]; eauto.
  destruct (ai =? 1); eauto.
  match goal with
  | |- context [extract_mel_features E file_path 160 ?w'] =>
      destruct (extract_mel_features E file_path 160 w')
        as [[e|[mel|]] w2]
  end; eauto.
  destruct (emotion_model_predict E [mel]) as [e|ep]; eauto.
  destruct (np_argmax (flatten ep)) as [e|ei]; eauto.
  destruct (inverse_transform E ei) as [e|label]; eauto.
Qed.

Lemma analyze_audio_total file_path w :
  exists s w', analyze_audio E file_path w = (inr s, w').
Proof.
  rewrite analyze_audio_run.
  destruct (extract_mfcc_sequence E file_path 160 w) as [[e|[t|]] w1].
  - unfold handled. eauto.
  - apply gender_stage_total.
  - eauto.
Qed.

(** The run when the gender model decides an index other than 1. *)
Lemma analyze_audio_female file_path w mfcc_seq w1 gender_pred idx :
  extract_mfcc_sequence E file_path 160 w = (inr (Some mfcc_seq), w1) ->
  gender_model_predict E [mfcc_seq] = inr gender_pred ->
  np_argmax (flatten gender_pred) = inr idx ->
  idx <> 1 ->
  analyze_audio E file_path w
  = (inr "🚫 Rejected: Female voice detected.",
     log w1 [EvPredictGender [mfcc_seq]; EvPrint "[INFO] Gender: female"]).
Proof.
  intros Hx Hg Hk Hne.
  rewrite analyze_audio_run, Hx. unfold gender_stage. rewrite Hg, Hk.
  apply Nat.eqb_neq in Hne. now rewrite Hne.
Qed.

(** The run when the gender model decides index 1: the age stage. *)
Lemma analyze_audio_male file_path w mfcc_seq w1 gender_pred :
  extract_mfcc_sequence E file_path 160 w = (inr (Some mfcc_seq), w1) ->
  gender_model_predict E [mfcc_seq] = inr gender_pred ->
  np_argmax (flatten gender_pred) = inr 1 ->
  analyze_audio E file_path w
  = age_stage E file_path [mfcc_seq]
      (log w1 [EvPredictGender [mfcc_seq]; EvPrint "[INFO] Gender: male"]).
Proof.
  intros Hx Hg Hk.
  rewrite analyze_audio_run, Hx. unfold gender_stage. now rewrite Hg, Hk.
Qed.

(** The run when both gates pass: the emotion stage. *)
Lemma analyze_audio_gates_pass file_path w mfcc_seq w1 :
  gates_pass E file_path w mfcc_seq w1 ->
  analyze_audio E file_path w
  = emotion_stage E file_path (after_gates w1 mfcc_seq).
Proof.
  intros (Hx & (gp & Hg & Hgk) & (ap & Ha & Hak)).
  rewrite (analyze_audio_male _ _ _ _ _ Hx Hg Hgk).
  unfold age_stage. rewrite Ha, Hak. cbn [Nat.eqb].
  unfold after_gates. now rewrite log_log.
Qed.

Lemma count_events_app f evs1 evs2 :
  count_events f (evs1 ++ evs2) = count_events f evs1 + count_events f evs2.
Proof. unfold count_events. now rewrite filter_app, length_app. Qed.

(** Brings a world reached in a run to the form [trace w ++ evs]. *)
Ltac normalise_trace :=
  unfold handled, after_gates, log, after_load; cbn [trace loads fst snd];
  rewrite <- ?app_assoc; cbn [app].

(** What the emotion stage adds to the trace: one call of [librosa.load],
    at most one mel spectrogram and at most one call of the emotion model,
    and no cepstral analysis. *)
Lemma emotion_stage_events file_path w r w' :
  emotion_stage E file_path w = (r, w') ->
  exists evs,
    trace w' = trace w ++ EvLoad file_path :: evs /\
    loads w' = S (loads w) /\
    count_events is_load evs = 0 /\
    count_events is_mfcc evs = 0 /\
    count_events is_melspectrogram evs <= 1 /\
    count_events is_predict_emotion evs <= 1.
Proof.
  unfold emotion_stage. rewrite extract_mel_features_run.
  destruct (librosa_load E (loads w) file_path) as [e|y].
  { intros [= <- <-]. normalise_trace.
    eexists. split; [reflexivity|]. cbn. lia. }
  destruct (librosa_melspectrogram E y 128) as [e|mel].
  { intros [= <- <-]. normalise_trace.
    eexists. split; [reflexivity|]. cbn. lia. }
  destruct (power_to_db mel) as [e|mel_db].
  { intros [= <- <-]. normalise_trace.
    eexists. split; [reflexivity|]. cbn. lia. }
  match goal with
  | |- context [emotion_model_predict E ?X] =>
      destruct (emotion_model_predict E X) as [e|ep]
  end.
  { intros [= <- <-]. normalise_trace.
    eexists. split; [reflexivity|]. cbn. lia. }
  destruct (np_argmax (flatten ep)) as [e|ei].
  { intros [= <- <-]. normalise_trace.
    eexists. split; [reflexivity|]. cbn. lia. }
  destruct (inverse_transform E ei) as [e|label];
    intros [= <- <-]; normalise_trace;
    (eexists; split; [reflexivity|]; cbn; lia).
Qed.

Lemma new_events_trace w w' evs :
  trace w' = trace w ++ evs -> new_events w w' = evs.
Proof.
  intros Htrace. unfold new_events. rewrite Htrace.
  rewrite skipn_app, skipn_all, Nat.sub_diag. reflexivity.
Qed.

(** The run when the age model decides an index other than 1. *)
Lemma analyze_audio_not_senior file_path w mfcc_seq w1
    gender_pred age_pred idx :
  extract_mfcc_sequence E file_path 160 w = (inr (Some mfcc_seq), w1) ->
  gender_model_predict E [mfcc_seq] = inr gender_pred ->
  np_argmax (flatten gender_pred) = inr 1 ->
  age_model_predict E [mfcc_seq] = inr age_pred ->
  np_argmax (flatten age_pred) = inr idx ->
  idx <> 1 ->
  analyze_audio E file_path w
  = (inr "🚫 Rejected: Not a senior (under 60).",
     log w1 [EvPredictGender [mfcc_seq]; EvPrint "[INFO] Gender: male";
             EvPredictAge [mfcc_seq];
             EvPrint "[INFO] Age Group: non-senior"]).
Proof.
  intros Hx Hg Hgk Ha Hak Hne.
  rewrite (analyze_audio_male _ _ _ _ _ Hx Hg Hgk).
  unfold age_stage. rewrite Ha, Hak.
  apply Nat.eqb_neq in Hne. rewrite Hne. now rewrite log_log.
Qed.

(** A successful cepstral extraction, without any assumption on shapes. *)
Lemma extract_mfcc_sequence_world file_path w mfcc_seq w1 :
  extract_mfcc_sequence E file_path 160 w = (inr (Some mfcc_seq), w1) ->
  exists y mfcc,
    librosa_load E (loads w) file_path = inr y /\
    librosa_mfcc E y 13 = inr mfcc /\
    mfcc_seq = transpose (fix_length mfcc 160) /\
    w1 = after_load w file_path [EvMfcc y].
Proof.
  rewrite extract_mfcc_sequence_run.
  destruct (librosa_load E (loads w) file_path) as [e|y]; [discriminate|].
  destruct (librosa_mfcc E y 13) as [e|mfcc] eqn:Hmfcc; [discriminate|].
  intros [= <- <-]. exists y, mfcc. auto.
Qed.

(** C3: in a run of [analyze_audio] the file is decoded at most twice, the
    mel spectrogram is computed at most once and the emotion model is called
    at most once; the second decoding (the first step of
    [extract_mel_features]), the spectrogram and the call of the emotion
    model happen only when the gender model decided index 1 and the age
    model decided index 1.  When either model decides another index, the
    run decodes the file once and computes no spectrogram and calls no
    emotion model. *)
Theorem C3_spectrogram_gated file_path w :
  let evs := new_events w (snd (analyze_audio E file_path w)) in
  count_events is_load evs <= 2 /\
  count_events is_melspectrogram evs <= 1 /\
  count_events is_predict_emotion evs <= 1 /\
  ((count_events is_load evs = 2 \/
    count_events is_melspectrogram evs = 1 \/
    count_events is_predict_emotion evs = 1) ->
   exists mfcc_seq w1, gates_pass E file_path w mfcc_seq w1) /\
  (forall mfcc_seq w1 gender_pred idx,
      extract_mfcc_sequence E file_path 160 w = (inr (Some mfcc_seq), w1) ->
      gender_model_predict E [mfcc_seq] = inr gender_pred ->
      np_argmax (flatten gender_pred) = inr idx ->
      idx <> 1 ->
      count_events is_load evs = 1 /\
      count_events is_melspectrogram evs = 0 /\
      count_events is_predict_emotion evs = 0) /\
  (forall mfcc_seq w1 gender_pred age_pred idx,
      extract_mfcc_sequence E file_path 160 w = (inr (Some mfcc_seq), w1) ->
      gender_model_predict E [mfcc_seq] = inr gender_pred ->
      np_argmax (flatten gender_pred) = inr 1 ->
      age_model_predict E [mfcc_seq] = inr age_pred ->
      np_argmax (flatten age_pred) = inr idx ->
      idx <> 1 ->
      count_events is_load evs = 1 /\
      count_events is_melspectrogram evs = 0 /\
      count_events is_predict_emotion evs = 0).
Proof.
  cbv zeta.
  assert (Hfemale : forall mfcc_seq w1 gender_pred idx,
      extract_mfcc_sequence E file_path 160 w = (inr (Some mfcc_seq), w1) ->
      gender_model_predict E [mfcc_seq] = inr gender_pred ->
      np_argmax (flatten gender_pred) = inr idx ->
      idx <> 1 ->
      exists y,
        new_events w (snd (analyze_audio E file_path w))
        = [EvLoad file_path; EvMfcc y; EvPredictGender [mfcc_seq];
           EvPrint "[INFO] Gender: female"]).
  { intros mfcc_seq w1 gp idx Hx Hg Hk Hne.
    rewrite (analyze_audio_female _ _ _ _ _ _ Hx Hg Hk Hne).
    destruct (extract_mfcc_sequence_world _ _ _ _ Hx)
      as (y & mfcc & _ & _ & _ & ->).
    exists y. apply new_events_trace. now normalise_trace. }
  assert (Hjunior : forall mfcc_seq w1 gender_pred age_pred idx,
      extract_mfcc_sequence E file_path 160 w = (inr (Some mfcc_seq), w1) ->
      gender_model_predict E [mfcc_seq] = inr gender_pred ->
      np_argmax (flatten gender_pred) = inr 1 ->
      age_model_predict E [mfcc_seq] = inr age_pred ->
      np_argmax (flatten age_pred) = inr idx ->
      idx <> 1 ->
      exists y,
        new_events w (snd (analyze_audio E file_path w))
        = [EvLoad file_path; EvMfcc y; EvPredictGender [mfcc_seq];
           EvPrint "[INFO] Gender: male"; EvPredictAge [mfcc_seq];
           EvPrint "[INFO] Age Group: non-senior"]).
  { intros mfcc_seq w1 gp ap idx Hx Hg Hgk Ha Hak Hne.
    rewrite (analyze_audio_not_senior _ _ _ _ _ _ _ Hx Hg Hgk Ha Hak Hne).
    destruct (extract_mfcc_sequence_world _ _ _ _ Hx)
      as (y & mfcc & _ & _ & _ & ->).
    exists y. apply new_events_trace. now normalise_trace. }
  assert (Hgeneral :
    exists evs, new_events w (snd (analyze_audio E file_path w)) = evs /\
      count_events is_load evs <= 2 /\
      count_events is_melspectrogram evs <= 1 /\
      count_events is_predict_emotion evs <= 1 /\
      ((count_events is_load evs = 2 \/
        count_events is_melspectrogram evs = 1 \/
        count_events is_predict_emotion evs = 1) ->
       exists mfcc_seq w1, gates_pass E file_path w mfcc_seq w1)).
  { rewrite analyze_audio_run.
    destruct (extract_mfcc_sequence E file_path 160 w)
      as [[e|[mfcc_seq|]] w1] eqn:Hx.
    - exfalso. destruct (extract_mfcc_sequence_total E file_path 160 w)
        as (r' & w'' & Hx'). congruence.
    - destruct (extract_mfcc_sequence_world _ _ _ _ Hx)
        as (y & mfcc & _ & _ & _ & ->).
      unfold gender_stage.
      destruct (gender_model_predict E [mfcc_seq]) as [e|gp] eqn:Hg.
      { eexists. split; [apply new_events_trace; now normalise_trace|].
        cbn. lia. }
      destruct (np_argmax (flatten gp)) as [e|gi] eqn:Hgk.
      { eexists. split; [apply new_events_trace; now normalise_trace|].
        cbn. lia. }
      destruct (Nat.eqb_spec gi 1) as [->|Hgi].
      2:{ eexists. split; [apply new_events_trace; now normalise_trace|].
          cbn. lia. }
      unfold age_stage.
      destruct (age_model_predict E [mfcc_seq]) as [e|ap] eqn:Ha.
      { eexists. split; [apply new_events_trace; now normalise_trace|].
        cbn. lia. }
      destruct (np_argmax (flatten ap)) as [e|ai] eqn:Hak.
      { eexists. split; [apply new_events_trace; now normalise_trace|].
        cbn. lia. }
      destruct (Nat.eqb_spec ai 1) as [->|Hai].
      2:{ eexists. split; [apply new_events_trace; now normalise_trace|].
          cbn. lia. }
      match goal with
      | |- context [emotion_stage E file_path ?w2] =>
          destruct (emotion_stage E file_path w2) as [r w'] eqn:Hem
      end.
      apply emotion_stage_events in Hem
        as (evs & Htrace & _ & Hload & _ & Hmel & Hemo).
      eexists. split.
      { apply new_events_trace. cbn [snd]. rewrite Htrace.
        now normalise_trace. }
      unfold count_events in *. cbn. repeat split; try lia.
      intros _. exists mfcc_seq, (after_load w file_path [EvMfcc y]).
      split; [exact Hx|]. split; eauto.
    - revert Hx. rewrite extract_mfcc_sequence_run.
      destruct (librosa_load E (loads w) file_path) as [e|y].
      { intros [= <-]. eexists.
        split; [apply new_events_trace; now normalise_trace|]. cbn. lia. }
      destruct (librosa_mfcc E y 13) as [e|mfcc]; [|discriminate].
      intros [= <-]. eexists.
      split; [apply new_events_trace; now normalise_trace|]. cbn. lia. }
  destruct Hgeneral as (evs & Hevs & H1 & H2 & H3 & H4).
  rewrite Hevs in *.
  split; [exact H1|]. split; [exact H2|]. split; [exact H3|].
  split; [exact H4|]. split.
  - intros mfcc_seq w1 gp idx Hx Hg Hk Hne.
    destruct (Hfemale _ _ _ _ Hx Hg Hk Hne) as [y Hy].
    rewrite Hy. cbn. auto.
  - intros mfcc_seq w1 gp ap idx Hx Hg Hgk Ha Hak Hne.
    destruct (Hjunior _ _ _ _ _ Hx Hg Hgk Ha Hak Hne) as [y Hy].
    rewrite Hy. cbn. auto.
Qed.

Lemma emotion_stage_total file_path w :
  exists s w', emotion_stage E file_path w = (inr s, w').
Proof.
  unfold emotion_stage, handled.
  destruct (extract_mel_features E file_path 160 w) as [[e|[mel|]] w2]; eauto.
  destruct (emotion_model_predict E [mel]) as [e|ep]; eauto.
  destruct (np_argmax (flatten ep)) as [e|ei]; eauto.
  destruct (inverse_transform E ei) as [e|label]; eauto.
Qed.

(** Rewrites a run with the outcomes of the calls that are known. *)
Ltac step :=
  match goal with
  | H : ?x = inl _ |- context [?x] => rewrite H
  | H : ?x = inr _ |- context [?x] => rewrite H
  | H : ?x = (_, _) |- context [?x] => rewrite H
  end.

Ltac run :=
  rewrite ?analyze_audio_run;
  repeat (first [ step
                | progress unfold gender_stage, age_stage, emotion_stage
                | progress cbn [Nat.eqb loads trace after_load after_gates log]
                | rewrite extract_mfcc_sequence_run
                | rewrite extract_mel_features_run ]).

(** C4: the gender stage.  With the coefficient tensor extracted and the
    gender model answering, any arg-max index other than 1 ends the run with
    the rejection of a female voice, and index 1 continues with the call of
    the age model on the same batch.  So with a gender model that always
    decides index 0 every run on a recording whose coefficients can be
    extracted ends with that rejection. *)
Theorem C4_gender_stage :
  (forall file_path w mfcc_seq w1 gender_pred idx,
      extract_mfcc_sequence E file_path 160 w = (inr (Some mfcc_seq), w1) ->
      gender_model_predict E [mfcc_seq] = inr gender_pred ->
      np_argmax (flatten gender_pred) = inr idx ->
      (idx <> 1 ->
       analyze_audio E file_path w
       = (inr "🚫 Rejected: Female voice detected.",
          log w1 [EvPredictGender [mfcc_seq];
                  EvPrint "[INFO] Gender: female"])) /\
      (idx = 1 ->
       exists s w' evs,
         analyze_audio E file_path w = (inr s, w') /\
         trace w' = trace w1 ++ [EvPredictGender [mfcc_seq];
                                 EvPrint "[INFO] Gender: male";
                                 EvPredictAge [mfcc_seq]] ++ evs)) /\
  ((forall X, exists gender_pred,
        gender_model_predict E X = inr gender_pred /\
        np_argmax (flatten gender_pred) = inr 0) ->
   forall file_path w mfcc_seq w1,
     extract_mfcc_sequence E file_path 160 w = (inr (Some mfcc_seq), w1) ->
     fst (analyze_audio E file_path w)
     = inr "🚫 Rejected: Female voice detected.").
Proof.
  split.
  - intros file_path w mfcc_seq w1 gp idx Hx Hg Hk. split.
    + intros Hne. eapply analyze_audio_female; eauto.
    + intros ->.
      rewrite (analyze_audio_male _ _ _ _ _ Hx Hg Hk).
      unfold age_stage.
      destruct (age_model_predict E [mfcc_seq]) as [e|ap].
      { do 3 eexists. split; [reflexivity|]. now normalise_trace. }
      destruct (np_argmax (flatten ap)) as [e|ai].
      { do 3 eexists. split; [reflexivity|]. now normalise_trace. }
      destruct (ai =? 1).
      2:{ do 3 eexists. split; [reflexivity|]. now normalise_trace. }
      match goal with
      | |- context [emotion_stage E file_path ?w2] =>
          destruct (emotion_stage_total file_path w2) as (s & w' & Hem)
      end.
      rewrite Hem.
      apply emotion_stage_events in Hem as (evs & Htrace & _).
      do 3 eexists. split; [reflexivity|]. rewrite Htrace.
      now normalise_trace.
  - intros Hmodel file_path w mfcc_seq w1 Hx.
    destruct (Hmodel [mfcc_seq]) as (gp & Hg & Hk).
    now rewrite (analyze_audio_female _ _ _ _ _ _ Hx Hg Hk).
Qed.

(** C5: the age stage.  After a male decision the age model is called on
    the batch the gender model was called on, and the cepstral analysis ran
    once in the whole run.  Any arg-max index other than 1 ends the run with
    the rejection of a subject who is not senior; index 1 continues with the
    emotion stage, which starts by decoding the file again. *)
Theorem C5_age_stage file_path w mfcc_seq w1 gender_pred age_pred idx :
  extract_mfcc_sequence E file_path 160 w = (inr (Some mfcc_seq), w1) ->
  gender_model_predict E [mfcc_seq] = inr gender_pred ->
  np_argmax (flatten gender_pred) = inr 1 ->
  age_model_predict E [mfcc_seq] = inr age_pred ->
  np_argmax (flatten age_pred) = inr idx ->
  exists s w' evs,
    analyze_audio E file_path w = (inr s, w') /\
    trace w' = trace w1 ++ [EvPredictGender [mfcc_seq];
                            EvPrint "[INFO] Gender: male";
                            EvPredictAge [mfcc_seq]] ++ evs /\
    count_events is_mfcc (new_events w w') = 1 /\
    (idx <> 1 ->
     s = "🚫 Rejected: Not a senior (under 60)." /\
     evs = [EvPrint "[INFO] Age Group: non-senior"]) /\
    (idx = 1 ->
     exists evs',
       evs = EvPrint "[INFO] Age Group: senior" :: EvLoad file_path :: evs').
Proof.
  intros Hx Hg Hgk Ha Hak.
  destruct (extract_mfcc_sequence_world _ _ _ _ Hx)
    as (y & mfcc & _ & _ & _ & Hw1).
  destruct (Nat.eq_dec idx 1) as [->|Hne].
  - rewrite (analyze_audio_gates_pass file_path w mfcc_seq w1)
      by (split; [exact Hx | split; eauto]).
    destruct (emotion_stage_total file_path (after_gates w1 mfcc_seq))
      as (s & w' & Hem).
    rewrite Hem.
    apply emotion_stage_events in Hem
      as (evs & Htrace & _ & _ & Hmfcc & _).
    exists s, w', (EvPrint "[INFO] Age Group: senior" :: EvLoad file_path :: evs).
    split; [reflexivity|]. split; [rewrite Htrace; now normalise_trace|].
    split; [|split; [congruence | eauto]].
    erewrite new_events_trace
      by (rewrite Htrace, Hw1; now normalise_trace).
    unfold count_events in *. cbn. lia.
  - rewrite (analyze_audio_not_senior _ _ _ _ _ _ _ Hx Hg Hgk Ha Hak Hne).
    do 3 eexists. split; [reflexivity|].
    split; [now normalise_trace|].
    split; [|split; [auto | congruence]].
    erewrite new_events_trace by (rewrite Hw1; now normalise_trace).
    reflexivity.
Qed.

(** C6: the emotion stage.  When both gates pass and the spectrogram tensor
    is extracted, the arg-max index of the emotion model's answer is mapped
    through the label encoder and the run returns the detected emotion with
    that name. *)
Theorem C6_emotion_detected file_path w mfcc_seq w1 mel_feat w2
    emotion_pred idx label :
  gates_pass E file_path w mfcc_seq w1 ->
  extract_mel_features E file_path 160 (after_gates w1 mfcc_seq)
  = (inr (Some mel_feat), w2) ->
  emotion_model_predict E [mel_feat] = inr emotion_pred ->
  np_argmax (flatten emotion_pred) = inr idx ->
  inverse_transform E idx = inr label ->
  analyze_audio E file_path w
  = (inr ("✅ Detected Emotion: " ++ label)%string,
     log w2 [EvPredictEmotion [mel_feat]; EvInverseTransform idx;
             EvPrint ("[INFO] Emotion: " ++ label)%string]).
Proof.
  intros Hgates Hmel He Hek Hlabel.
  rewrite (analyze_audio_gates_pass _ _ _ _ Hgates).
  unfold emotion_stage. now rewrite Hmel, He, Hek, Hlabel.
Qed.

(** C8: [analyze_audio] returns a text for every path and every world, and
    never raises.  A failure of the decoding, of a feature extraction, of a
    model, of the arg-max or of the label encoder makes that text an error
    message: the fixed message of the extractor that failed, or the message
    of the exception caught by the outer handler. *)
Theorem C8_errors_become_results file_path w :
  exists s w',
    analyze_audio E file_path w = (inr s, w') /\
    (* the first decoding or the cepstral analysis fails *)
    (forall e, librosa_load E (loads w) file_path = inl e ->
       s = "❌ Error: Could not extract MFCC sequence.") /\
    (forall y e, librosa_load E (loads w) file_path = inr y ->
       librosa_mfcc E y 13 = inl e ->
       s = "❌ Error: Could not extract MFCC sequence.") /\
    (* the gender model or its arg-max fails *)
    (forall mfcc_seq w1 e,
       extract_mfcc_sequence E file_path 160 w = (inr (Some mfcc_seq), w1) ->
       gender_model_predict E [mfcc_seq] = inl e ->
       s = ("❌ Error: " ++ exn_msg e)%string) /\
    (forall mfcc_seq w1 gender_pred e,
       extract_mfcc_sequence E file_path 160 w = (inr (Some mfcc_seq), w1) ->
       gender_model_predict E [mfcc_seq] = inr gender_pred ->
       np_argmax (flatten gender_pred) = inl e ->
       s = ("❌ Error: " ++ exn_msg e)%string) /\
    (* the age model or its arg-max fails *)
    (forall mfcc_seq w1 gender_pred e,
       extract_mfcc_sequence E file_path 160 w = (inr (Some mfcc_seq), w1) ->
       gender_model_predict E [mfcc_seq] = inr gender_pred ->
       np_argmax (flatten gender_pred) = inr 1 ->
       age_model_predict E [mfcc_seq] = inl e ->
       s = ("❌ Error: " ++ exn_msg e)%string) /\
    (forall mfcc_seq w1 gender_pred age_pred e,
       extract_mfcc_sequence E file_path 160 w = (inr (Some mfcc_seq), w1) ->
       gender_model_predict E [mfcc_seq] = inr gender_pred ->
       np_argmax (flatten gender_pred) = inr 1 ->
       age_model_predict E [mfcc_seq] = inr age_pred ->
       np_argmax (flatten age_pred) = inl e ->
       s = ("❌ Error: " ++ exn_msg e)%string) /\
    (* the second decoding, the mel analysis or the decibel conversion
       fails *)
    (forall mfcc_seq w1 e,
       gates_pass E file_path w mfcc_seq w1 ->
       librosa_load E (S (loads w)) file_path = inl e ->
       s = "❌ Error: Could not extract Mel features.") /\
    (forall mfcc_seq w1 y e,
       gates_pass E file_path w mfcc_seq w1 ->
       librosa_load E (S (loads w)) file_path = inr y ->
       librosa_melspectrogram E y 128 = inl e ->
       s = "❌ Error: Could not extract Mel features.") /\
    (forall mfcc_seq w1 y mel e,
       gates_pass E file_path w mfcc_seq w1 ->
       librosa_load E (S (loads w)) file_path = inr y ->
       librosa_melspectrogram E y 128 = inr mel ->
       power_to_db mel = inl e ->
       s = "❌ Error: Could not extract Mel features.") /\
    (* the emotion model, its arg-max or the label encoder fails *)
    (forall mfcc_seq w1 mel_feat w2 e,
       gates_pass E file_path w mfcc_seq w1 ->
       extract_mel_features E file_path 160 (after_gates w1 mfcc_seq)
       = (inr (Some mel_feat), w2) ->
       emotion_model_predict E [mel_feat] = inl e ->
       s = ("❌ Error: " ++ exn_msg e)%string) /\
    (forall mfcc_seq w1 mel_feat w2 emotion_pred e,
       gates_pass E file_path w mfcc_seq w1 ->
       extract_mel_features E file_path 160 (after_gates w1 mfcc_seq)
       = (inr (Some mel_feat), w2) ->
       emotion_model_predict E [mel_feat] = inr emotion_pred ->
       np_argmax (flatten emotion_pred) = inl e ->
       s = ("❌ Error: " ++ exn_msg e)%string) /\
    (forall mfcc_seq w1 mel_feat w2 emotion_pred idx e,
       gates_pass E file_path w mfcc_seq w1 ->
       extract_mel_features E file_path 160 (after_gates w1 mfcc_seq)
       = (inr (Some mel_feat), w2) ->
       emotion_model_predict E [mel_feat] = inr emotion_pred ->
       np_argmax (flatten emotion_pred) = inr idx ->
       inverse_transform E idx = inl e ->
       s = ("❌ Error: " ++ exn_msg e)%string).
Proof.
  destruct (analyze_audio_total file_path w) as (s & w' & Hrun).
  exists s, w'. split; [exact Hrun|].
  assert (Hloads : forall mfcc_seq w1,
             gates_pass E file_path w mfcc_seq w1 ->
             loads (after_gates w1 mfcc_seq) = S (loads w)).
  { intros mfcc_seq w1 (Hx & _).
    destruct (extract_mfcc_sequence_world _ _ _ _ Hx)
      as (y & mfcc & _ & _ & _ & ->). reflexivity. }
  repeat split.
  - intros e Hload. revert Hrun. run. congruence.
  - intros y e Hload Hmfcc. revert Hrun. run. congruence.
  - intros mfcc_seq w1 e Hx Hg. revert Hrun. run. unfold handled. congruence.
  - intros mfcc_seq w1 gp e Hx Hg Hk. revert Hrun. run. unfold handled.
    congruence.
  - intros mfcc_seq w1 gp e Hx Hg Hk Ha. revert Hrun. run. unfold handled.
    congruence.
  - intros mfcc_seq w1 gp ap e Hx Hg Hk Ha Hak. revert Hrun. run.
    unfold handled. congruence.
  - intros mfcc_seq w1 e Hgates Hload. revert Hrun.
    rewrite (analyze_audio_gates_pass _ _ _ _ Hgates).
    unfold emotion_stage. rewrite extract_mel_features_run.
    rewrite (Hloads _ _ Hgates), Hload. congruence.
  - intros mfcc_seq w1 y e Hgates Hload Hmel. revert Hrun.
    rewrite (analyze_audio_gates_pass _ _ _ _ Hgates).
    unfold emotion_stage. rewrite extract_mel_features_run.
    rewrite (Hloads _ _ Hgates), Hload, Hmel. congruence.
  - intros mfcc_seq w1 y mel e Hgates Hload Hmel Hdb. revert Hrun.
    rewrite (analyze_audio_gates_pass _ _ _ _ Hgates).
    unfold emotion_stage. rewrite extract_mel_features_run.
    rewrite (Hloads _ _ Hgates), Hload, Hmel, Hdb. congruence.
  - intros mfcc_seq w1 mel_feat w2 e Hgates Hmel He. revert Hrun.
    rewrite (analyze_audio_gates_pass _ _ _ _ Hgates).
    unfold emotion_stage, handled. rewrite Hmel, He. congruence.
  - intros mfcc_seq w1 mel_feat w2 ep e Hgates Hmel He Hek. revert Hrun.
    rewrite (analyze_audio_gates_pass _ _ _ _ Hgates).
    unfold emotion_stage, handled. rewrite Hmel, He, Hek. congruence.
  - intros mfcc_seq w1 mel_feat w2 ep idx e Hgates Hmel He Hek Hlabel.
    revert Hrun.
    rewrite (analyze_audio_gates_pass _ _ _ _ Hgates).
    unfold emotion_stage, handled. rewrite Hmel, He, Hek, Hlabel. congruence.
Qed.

(** C9: each extractor is all or nothing.  It never raises; it returns
    either nothing or a tensor of the full shape, (160, 13) for the
    coefficients and (128, 160, 1) for the spectrogram; a failure of the
    decoding, of the analysis or of the decibel conversion makes it return
    nothing; and the pipeline turns nothing into an error text, which is not
    a rejection. *)
Theorem C9_all_or_nothing file_path w :
  LibrosaShapes E ->
  (exists r w1,
      extract_mfcc_sequence E file_path 160 w = (inr r, w1) /\
      match r with
      | Some t => has_shape 160 13 t
      | None =>
          exists s,
            analyze_audio E file_path w = (inr s, w1) /\
            s = "❌ Error: Could not extract MFCC sequence." /\
            is_error s = true /\ is_rejected s = false
      end /\
      (forall e, librosa_load E (loads w) file_path = inl e -> r = None) /\
      (forall y e, librosa_load E (loads w) file_path = inr y ->
                   librosa_mfcc E y 13 = inl e -> r = None)) /\
  (exists r w2,
      extract_mel_features E file_path 160 w = (inr r, w2) /\
      match r with
      | Some t => has_shape3 128 160 1 t
      | None => True
      end /\
      (forall e, librosa_load E (loads w) file_path = inl e -> r = None) /\
      (forall y e, librosa_load E (loads w) file_path = inr y ->
                   librosa_melspectrogram E y 128 = inl e -> r = None) /\
      (forall y mel e, librosa_load E (loads w) file_path = inr y ->
                       librosa_melspectrogram E y 128 = inr mel ->
                       power_to_db mel = inl e -> r = None)) /\
  (forall mfcc_seq w1 w2,
      gates_pass E file_path w mfcc_seq w1 ->
      extract_mel_features E file_path 160 (after_gates w1 mfcc_seq)
      = (inr None, w2) ->
      exists s,
        analyze_audio E file_path w = (inr s, w2) /\
        s = "❌ Error: Could not extract Mel features." /\
        is_error s = true /\ is_rejected s = false).
Proof.
  intros shapes. split; [|split].
  - destruct (extract_mfcc_sequence_total E file_path 160 w)
      as (r & w1 & Hx).
    exists r, w1. split; [exact Hx|]. split; [|split].
    + destruct r as [t|].
      * destruct (extract_mfcc_sequence_some E shapes _ _ _ _ _ Hx)
          as (y & mfcc & frames & _ & _ & Hshape & -> & _).
        eapply mfcc_tensor_shape; eauto.
      * eexists. rewrite analyze_audio_run, Hx.
        repeat split; reflexivity.
    + intros e Hload. revert Hx. rewrite extract_mfcc_sequence_run, Hload.
      congruence.
    + intros y e Hload Hmfcc. revert Hx.
      rewrite extract_mfcc_sequence_run, Hload, Hmfcc. congruence.
  - destruct (extract_mel_features_total E file_path 160 w)
      as (r & w2 & Hx).
    exists r, w2. split; [exact Hx|]. split; [|split; [|split]].
    + destruct r as [t|]; [|exact I].
      destruct (extract_mel_features_some E shapes _ _ _ _ _ Hx)
        as (y & mel & frames & mel_db & _ & _ & _ & _ & Hshape & -> & _).
      eapply mel_tensor_shape; eauto.
    + intros e Hload. revert Hx. rewrite extract_mel_features_run, Hload.
      congruence.
    + intros y e Hload Hmel. revert Hx.
      rewrite extract_mel_features_run, Hload, Hmel. congruence.
    + intros y mel e Hload Hmel Hdb. revert Hx.
      rewrite extract_mel_features_run, Hload, Hmel, Hdb. congruence.
  - intros mfcc_seq w1 w2 Hgates Hmel.
    eexists. rewrite (analyze_audio_gates_pass _ _ _ _ Hgates).
    unfold emotion_stage. rewrite Hmel. repeat split; reflexivity.
Qed.

(** C10: when both gates pass, the file is decoded twice in the run.  The
    coefficient tensor comes from the signal of the first decoding and the
    spectrogram tensor, which is the one given to the emotion model, from
    the signal of the second; nothing relates the two signals. *)
Theorem C10_two_decodings file_path w mfcc_seq w1 :
  gates_pass E file_path w mfcc_seq w1 ->
  exists s w',
    analyze_audio E file_path w = (inr s, w') /\
    count_events is_load (new_events w w') = 2 /\
    loads w' = S (S (loads w)) /\
    (exists y0 mfcc,
        librosa_load E (loads w) file_path = inr y0 /\
        librosa_mfcc E y0 13 = inr mfcc /\
        mfcc_seq = transpose (fix_length mfcc 160) /\
        In (EvMfcc y0) (new_events w w')) /\
    (forall mel_feat w2,
        extract_mel_features E file_path 160 (after_gates w1 mfcc_seq)
        = (inr (Some mel_feat), w2) ->
        exists y1 mel mel_db,
          librosa_load E (S (loads w)) file_path = inr y1 /\
          librosa_melspectrogram E y1 128 = inr mel /\
          power_to_db mel = inr mel_db /\
          mel_feat = newaxis_last (fix_length mel_db 160) /\
          In (EvMelspectrogram y1) (new_events w w') /\
          In (EvPredictEmotion [mel_feat]) (new_events w w')).
Proof.
  intros Hgates. pose proof Hgates as (Hx & _).
  destruct (extract_mfcc_sequence_world _ _ _ _ Hx)
    as (y0 & mfcc & Hload0 & Hmfcc & Hseq & Hw1).
  rewrite (analyze_audio_gates_pass _ _ _ _ Hgates).
  destruct (emotion_stage_total file_path (after_gates w1 mfcc_seq))
    as (s & w' & Hem).
  rewrite Hem. exists s, w'. split; [reflexivity|].
  pose proof Hem as Hevents.
  apply emotion_stage_events in Hevents
    as (evs & Htrace & Hloads & Hload & _).
  assert (Hnew : new_events w w'
                 = [EvLoad file_path; EvMfcc y0;
                    EvPredictGender [mfcc_seq]; EvPrint "[INFO] Gender: male";
                    EvPredictAge [mfcc_seq];
                    EvPrint "[INFO] Age Group: senior"]
                   ++ EvLoad file_path :: evs).
  { apply new_events_trace. rewrite Htrace, Hw1. now normalise_trace. }
  split; [|split; [|split]].
  - rewrite Hnew, count_events_app. unfold count_events in *. cbn. lia.
  - rewrite Hloads, Hw1. reflexivity.
  - exists y0, mfcc. repeat split; auto.
    rewrite Hnew. cbn. auto.
  - intros mel_feat w2 Hmel.
    pose proof Hmel as Hmel'. rewrite extract_mel_features_run in Hmel'.
    replace (loads (after_gates w1 mfcc_seq)) with (S (loads w)) in Hmel'
      by (rewrite Hw1; reflexivity).
    destruct (librosa_load E (S (loads w)) file_path) as [e|y1] eqn:Hload1;
      [discriminate|].
    destruct (librosa_melspectrogram E y1 128) as [e|mel] eqn:Hmel1;
      [discriminate|].
    destruct (power_to_db mel) as [e|mel_db] eqn:Hdb; [discriminate|].
    injection Hmel' as Hfeat Hw2.
    exists y1, mel, mel_db.
    split; [reflexivity|]. split; [exact Hmel1|]. split; [exact Hdb|].
    split; [now rewrite Hfeat|].
    assert (Hevs : exists evs',
               new_events w w'
               = [EvLoad file_path; EvMfcc y0; EvPredictGender [mfcc_seq];
                  EvPrint "[INFO] Gender: male"; EvPredictAge [mfcc_seq];
                  EvPrint "[INFO] Age Group: senior"; EvLoad file_path;
                  EvMelspectrogram y1; EvPredictEmotion [mel_feat]]
                 ++ evs').
    { revert Hem. unfold emotion_stage. rewrite Hmel, <- Hw2, Hw1.
      destruct (emotion_model_predict E [mel_feat]) as [e|ep];
        [|destruct (np_argmax (flatten ep)) as [e|ei];
          [|destruct (inverse_transform E ei) as [e|label]]];
        intros [= <- <-]; eexists; apply new_events_trace;
        normalise_trace; reflexivity. }
    destruct Hevs as [evs' ->].
    split; apply in_or_app; left; cbn; auto 12.
Qed.

End Cascade.

(** * The test doubles at work *)

Lemma np_argmax_class_0 : np_argmax (flatten [[1; 0]%R]) = inr 0.
Proof.
  cbn. destruct (Rlt_dec 1 0) as [H|H]; [lra | reflexivity].
Qed.

Lemma np_argmax_class_1 : np_argmax (flatten [[0; 1]%R]) = inr 1.
Proof.
  cbn. destruct (Rlt_dec 0 1) as [H|H]; [reflexivity | lra].
Qed.

Lemma np_argmax_class_2_of_4 :
  np_argmax (flatten [[0; 0; 1; 0]%R]) = inr 2.
Proof.
  cbn. destruct (Rlt_dec 0 0) as [H|H]; [lra|].
  destruct (Rlt_dec 0 1) as [H1|H1]; [|lra].
  destruct (Rlt_dec 1 0) as [H2|H2]; [lra | reflexivity].
Qed.

Section MockRuns.

Variable files : nat -> string -> result signal.
Variables gender_out age_out emotion_out : result matrix.
Variable labels : list string.

Local Abbreviation mock :=
  (mock_externals files gender_out age_out emotion_out labels).

Lemma mock_extract_mfcc file_path w y :
  files (loads w) file_path = inr y ->
  extract_mfcc_sequence mock file_path 160 w
  = (inr (Some (transpose (fix_length (repeat y 13) 160))),
     after_load w file_path [EvMfcc y]).
Proof.
  intros Hfile. rewrite extract_mfcc_sequence_run.
  cbn [librosa_load librosa_mfcc mock_externals].
  now rewrite Hfile.
Qed.

Lemma mock_extract_mfcc_missing file_path w e :
  files (loads w) file_path = inl e ->
  extract_mfcc_sequence mock file_path 160 w
  = (inr None,
     after_load w file_path
       [EvPrint ("[ERROR] MFCC extraction failed: " ++ exn_msg e)%string]).
Proof.
  intros Hfile. rewrite extract_mfcc_sequence_run.
  cbn [librosa_load mock_externals]. now rewrite Hfile.
Qed.

Lemma mock_extract_mel file_path w y :
  files (loads w) file_path = inr y ->
  y <> [] ->
  exists mel_db,
    power_to_db (repeat y 128) = inr mel_db /\
    extract_mel_features mock file_path 160 w
    = (inr (Some (newaxis_last (fix_length mel_db 160))),
       after_load w file_path [EvMelspectrogram y]).
Proof.
  intros Hfile Hy.
  destruct (power_to_db_defined (repeat y 128)) as [mel_db Hdb].
  { destruct y; [congruence | discriminate]. }
  exists mel_db. split; [exact Hdb|].
  rewrite extract_mel_features_run.
  cbn [librosa_load librosa_melspectrogram mock_externals].
  now rewrite Hfile, Hdb.
Qed.

End MockRuns.

Lemma mock_gates_pass files emotion_out labels file_path w y :
  files (loads w) file_path = inr y ->
  gates_pass (mock_externals files class_1 class_1 emotion_out labels)
    file_path w
    (transpose (fix_length (repeat y 13) 160))
    (after_load w file_path [EvMfcc y]).
Proof.
  intros Hfile. split; [now apply mock_extract_mfcc|].
  split; exists [[0; 1]%R]; split;
    first [reflexivity | apply np_argmax_class_1].
Qed.

(** C1 on a three-sample recording: the analysis of the test double has
    three frames, so the tensor ends with 157 zero frames. *)
Lemma C1_mfcc_time_dimension_witness :
  has_shape 160 13 (transpose (fix_length (repeat three_samples 13) 160)) /\
  nth_error (transpose (fix_length (repeat three_samples 13) 160)) 2
  = Some (repeat 3%R 13) /\
  nth_error (transpose (fix_length (repeat three_samples 13) 160)) 3
  = Some (repeat 0%R 13) /\
  nth_error (transpose (fix_length (repeat three_samples 13) 160)) 159
  = Some (repeat 0%R 13).
Proof.
  destruct (C1_mfcc_time_dimension mock_female
              (mock_externals_shapes _ _ _ _ _) "voice.wav" w0 _ _
              (mock_extract_mfcc _ _ _ _ _ "voice.wav" w0 three_samples
                 eq_refl))
    as (y & mfcc & frames & Hload & Hmfcc & Hshape & Ht & Hframes).
  injection Hload as <-. injection Hmfcc as <-.
  assert (frames = 3) as ->.
  { pose proof (has_shape_ncols _ _ _ Hshape ltac:(lia)) as Hcols.
    symmetry. exact Hcols. }
  split; [exact Ht|].
  split; [|split].
  - rewrite (Hframes 2) by lia. reflexivity.
  - rewrite (Hframes 3) by lia. reflexivity.
  - rewrite (Hframes 159) by lia. reflexivity.
Defined.

(** C2 on the same recording. *)
Lemma C2_mel_tensor_shape_witness :
  exists t w',
    extract_mel_features mock_female "voice.wav" 160 w0
    = (inr (Some t), w') /\
    has_shape3 128 160 1 t /\
    nth 3 (nth 0 t []) [] = [0%R].
Proof.
  destruct (mock_extract_mel (one_file three_samples) class_0 class_1
              class_2_of_4 emotion_labels "voice.wav" w0 three_samples
              eq_refl ltac:(discriminate)) as (mel_db & Hdb & Hrun).
  eexists _, _. split; [exact Hrun|].
  destruct (C2_mel_tensor_shape mock_female
              (mock_externals_shapes _ _ _ _ _) _ _ _ _ Hrun)
    as (y & mel & frames & mel_db' & Hload & Hmel & Hshape & _ & Ht
        & Hcells).
  split; [exact Ht|].
  injection Hload as <-. injection Hmel as <-.
  assert (frames = 3) as ->.
  { pose proof (has_shape_ncols _ _ _ Hshape ltac:(lia)) as Hcols.
    symmetry. exact Hcols. }
  rewrite (Hcells 0 3) by lia. reflexivity.
Defined.

(** C7 on the three-sample recording: no frame is cut off and the largest
    value is 0. *)
Lemma C7_mel_max_amended_witness :
  exists t w',
    extract_mel_features mock_female "voice.wav" 160 w0
    = (inr (Some t), w') /\
    np_max (flatten3 t) = inr 0%R.
Proof.
  destruct (mock_extract_mel (one_file three_samples) class_0 class_1
              class_2_of_4 emotion_labels "voice.wav" w0 three_samples
              eq_refl ltac:(discriminate)) as (mel_db & Hdb & Hrun).
  eexists _, _. split; [exact Hrun|].
  destruct (C7_mel_max_amended mock_female _ _ _ _
              (mock_externals_shapes _ _ _ _ _) Hrun)
    as (y & mel & frames & mx & Hload & Hmel & Hshape & Hmx & _ & Hzero & _).
  rewrite Hmx. f_equal. apply Hzero.
  injection Hload as <-. injection Hmel as <-.
  pose proof (has_shape_ncols _ _ _ Hshape ltac:(lia)) as Hcols.
  cbn in Hcols. lia.
Defined.

Lemma log10_1 : log10 1 = 0%R.
Proof. unfold log10. rewrite ln_1. unfold Rdiv. ring. Qed.

Lemma log10_10 : log10 10 = 1%R.
Proof. unfold log10. field. pose proof ln10_pos. lra. Qed.

(** The decibel value of the quiet frames of [quiet_then_loud]. *)
Lemma db_of_quiet : Rmax (db_of 10 1) (0 - top_db) = (-10)%R.
Proof.
  unfold db_of, top_db.
  rewrite (Rmax_right amin 1) by (unfold amin; lra).
  rewrite (Rmax_right amin 10) by (unfold amin; lra).
  rewrite log10_1, log10_10.
  rewrite Rmax_left by lra. lra.
Qed.

Lemma in_flatten_repeat (row : list R) n v :
  In v (flatten (repeat row n)) -> In v row.
Proof.
  unfold flatten. intros Hin.
  apply in_concat in Hin as (row' & Hrow' & Hv).
  now rewrite (repeat_spec _ _ _ Hrow') in Hv.
Qed.

Lemma in_flatten_repeat_S (row : list R) n v :
  In v row -> In v (flatten (repeat row (S n))).
Proof. intros Hin. unfold flatten. simpl. apply in_or_app. now left. Qed.

Lemma np_max_quiet_then_loud :
  np_max (flatten (repeat quiet_then_loud 128)) = inr 10%R.
Proof.
  apply np_max_attained.
  - apply in_flatten_repeat_S. unfold quiet_then_loud.
    apply in_or_app. right. now left.
  - intros x Hx. apply in_flatten_repeat in Hx. unfold quiet_then_loud in Hx.
    apply in_app_or in Hx as [Hx|[<-|[]]].
    + rewrite (repeat_spec _ _ _ Hx). lra.
    + lra.
Qed.

(** The spectrogram tensor of [quiet_then_loud]: the loud frame sets the
    reference and is then cut off. *)
Lemma extract_mel_features_quiet_then_loud :
  extract_mel_features mock_quiet_then_loud "voice.wav" 160 w0
  = (inr (Some (newaxis_last (repeat (repeat (-10)%R 160) 128))),
     after_load w0 "voice.wav" [EvMelspectrogram quiet_then_loud]).
Proof.
  destruct (mock_extract_mel (one_file quiet_then_loud) class_1 class_1
              class_2_of_4 emotion_labels "voice.wav" w0 quiet_then_loud
              eq_refl ltac:(discriminate)) as (mel_db & Hdb & Hrun).
  unfold mock_quiet_then_loud. rewrite Hrun. do 3 f_equal.
  destruct (power_to_db_cells _ _ Hdb) as (ref & Href & ->).
  rewrite np_max_quiet_then_loud in Href. injection Href as <-.
  rewrite map_repeat. unfold fix_length.
  replace (ncols _) with 161 by reflexivity.
  change (161 <? 160) with false. cbv iota.
  unfold slice_cols. rewrite map_repeat. f_equal.
  unfold quiet_then_loud.
  rewrite firstn_map, firstn_app, repeat_length, firstn_all2
    by (rewrite repeat_length; lia).
  change (160 - 160) with 0. rewrite firstn_O, app_nil_r, map_repeat.
  now rewrite db_of_quiet.
Qed.

(** C7 fails as it is stated: the mel spectrogram of [quiet_then_loud] has
    161 frames with the largest power in the last one, and the largest value
    of the extracted tensor is -10, not 0. *)
Lemma C7_mel_max_counterexample :
  exists t w',
    extract_mel_features mock_quiet_then_loud "voice.wav" 160 w0
    = (inr (Some t), w') /\
    np_max (flatten3 t) = inr (-10)%R /\
    np_max (flatten3 t) <> inr 0%R.
Proof.
  eexists _, _. split; [apply extract_mel_features_quiet_then_loud|].
  assert (H : np_max (flatten3 (newaxis_last (repeat (repeat (-10)%R 160) 128)))
              = inr (-10)%R).
  { rewrite flatten3_newaxis_last. apply np_max_attained.
    - apply in_flatten_repeat_S. now left.
    - intros x Hx. apply in_flatten_repeat in Hx.
      rewrite (repeat_spec _ _ _ Hx). lra. }
  split; [exact H|]. rewrite H. intros [= Heq]. lra.
Qed.

(** C3 on a voice the gender model rejects: one decoding, no spectrogram,
    no call of the emotion model. *)
Lemma C3_spectrogram_gated_witness :
  count_events is_load
    (new_events w0 (snd (analyze_audio mock_female "voice.wav" w0))) = 1 /\
  count_events is_melspectrogram
    (new_events w0 (snd (analyze_audio mock_female "voice.wav" w0))) = 0 /\
  count_events is_predict_emotion
    (new_events w0 (snd (analyze_audio mock_female "voice.wav" w0))) = 0.
Proof.
  destruct (C3_spectrogram_gated mock_female "voice.wav" w0)
    as (_ & _ & _ & _ & Hfemale & _).
  apply (Hfemale _ _ [[1; 0]%R] 0
           (mock_extract_mfcc _ _ _ _ _ "voice.wav" w0 three_samples eq_refl)
           eq_refl np_argmax_class_0).
  discriminate.
Defined.

(** C4 with a gender model that always decides index 0. *)
Lemma C4_gender_stage_witness :
  fst (analyze_audio mock_female "voice.wav" w0)
  = inr "🚫 Rejected: Female voice detected.".
Proof.
  apply (proj2 (C4_gender_stage mock_female)) with
    (mfcc_seq := transpose (fix_length (repeat three_samples 13) 160))
    (w1 := after_load w0 "voice.wav" [EvMfcc three_samples]).
  - intros X. exists [[1; 0]%R]. split; [reflexivity|].
    apply np_argmax_class_0.
  - apply (mock_extract_mfcc _ _ _ _ _ "voice.wav" w0 three_samples eq_refl).
Defined.

(** C5 with a male voice the age model does not take for senior. *)
Lemma C5_age_stage_witness :
  exists w',
    analyze_audio mock_junior "voice.wav" w0
    = (inr "🚫 Rejected: Not a senior (under 60).", w') /\
    count_events is_mfcc (new_events w0 w') = 1.
Proof.
  destruct (C5_age_stage mock_junior "voice.wav" w0 _ _
              [[0; 1]%R] [[1; 0]%R] 0
              (mock_extract_mfcc _ _ _ _ _ "voice.wav" w0 three_samples
                 eq_refl)
              eq_refl np_argmax_class_1 eq_refl np_argmax_class_0)
    as (s & w' & evs & Hrun & _ & Hmfcc & Hreject & _).
  destruct (Hreject ltac:(discriminate)) as [-> _].
  exists w'. split; [exact Hrun | exact Hmfcc].
Defined.

(** C6 with models that answer male, senior and emotion index 2, which the
    label table maps to happy. *)
Lemma C6_emotion_detected_witness :
  exists w',
    analyze_audio mock_senior_male "voice.wav" w0
    = (inr "✅ Detected Emotion: happy", w').
Proof.
  destruct (mock_extract_mel (one_file three_samples) class_1 class_1
              class_2_of_4 emotion_labels "voice.wav"
              (after_gates (after_load w0 "voice.wav" [EvMfcc three_samples])
                 (transpose (fix_length (repeat three_samples 13) 160)))
              three_samples eq_refl ltac:(discriminate))
    as (mel_db & Hdb & Hmel).
  eexists.
  apply (C6_emotion_detected mock_senior_male "voice.wav" w0 _ _ _ _
           [[0; 0; 1; 0]%R] 2 "happy"
           (mock_gates_pass _ _ _ "voice.wav" w0 three_samples eq_refl)
           Hmel eq_refl np_argmax_class_2_of_4 eq_refl).
Defined.

(** C8 on a path that names no file. *)
Lemma C8_errors_become_results_witness :
  exists w',
    analyze_audio mock_senior_male "missing.wav" w0
    = (inr "❌ Error: Could not extract MFCC sequence.", w').
Proof.
  destruct (C8_errors_become_results mock_senior_male "missing.wav" w0)
    as (s & w' & Hrun & Hdecode & _).
  exists w'. rewrite Hrun. do 2 f_equal.
  apply (Hdecode (Exception "No such file or directory")). reflexivity.
Defined.

(** C9 on a path that names no file: nothing is extracted and the pipeline
    answers with an error. *)
Lemma C9_all_or_nothing_witness :
  exists w1,
    extract_mfcc_sequence mock_senior_male "missing.wav" 160 w0
    = (inr None, w1) /\
    analyze_audio mock_senior_male "missing.wav" w0
    = (inr "❌ Error: Could not extract MFCC sequence.", w1).
Proof.
  destruct (C9_all_or_nothing mock_senior_male "missing.wav" w0
              (mock_externals_shapes _ _ _ _ _))
    as ((r & w1 & Hx & Hshape & Hdecode & _) & _).
  rewrite (Hdecode (Exception "No such file or directory") eq_refl)
    in Hx, Hshape.
  destruct Hshape as (s & Hrun & -> & _).
  exists w1. split; [exact Hx | exact Hrun].
Defined.

(** C10 with a file that is overwritten between the two decodings: the
    coefficients describe the three-sample signal and the spectrogram the
    two-sample one. *)
Lemma C10_two_decodings_witness :
  exists s w',
    analyze_audio mock_changing "voice.wav" w0 = (inr s, w') /\
    count_events is_load (new_events w0 w') = 2 /\
    In (EvMfcc three_samples) (new_events w0 w') /\
    In (EvMelspectrogram two_samples) (new_events w0 w') /\
    three_samples <> two_samples.
Proof.
  destruct (mock_extract_mel (changing_file three_samples two_samples)
              class_1 class_1 class_2_of_4 emotion_labels "voice.wav"
              (after_gates (after_load w0 "voice.wav" [EvMfcc three_samples])
                 (transpose (fix_length (repeat three_samples 13) 160)))
              two_samples eq_refl ltac:(discriminate))
    as (mel_db & Hdb & Hmel).
  destruct (C10_two_decodings mock_changing "voice.wav" w0 _ _
              (mock_gates_pass _ _ _ "voice.wav" w0 three_samples eq_refl))
    as (s & w' & Hrun & Hloads & _ & (y0 & mfcc & Hload0 & _ & _ & Hin0)
        & Hsecond).
  destruct (Hsecond _ _ Hmel)
    as (y1 & mel & mel_db' & Hload1 & _ & _ & _ & Hin1 & _).
  injection Hload0 as <-. injection Hload1 as <-.
  exists s, w'. repeat split; auto. discriminate.
Defined.

(** * Every run, case by case *)

Section Outcomes.

Variable E : Externals.

Ltac flatten_trace :=
  unfold handled, after_gates, gate_events, log, after_load;
  cbn [trace loads fst snd];
  rewrite <- ?app_assoc; cbn [app].

(** A run of [analyze_audio] returns a text and adds to the trace the events
    of one of the shapes of [outcome]. *)
Lemma analyze_audio_outcome file_path w :
  exists s w' evs,
    analyze_audio E file_path w = (inr s, w') /\
    trace w' = trace w ++ evs /\
    outcome file_path s evs.
Proof.
  rewrite analyze_audio_run, extract_mfcc_sequence_run.
  destruct (librosa_load E (loads w) file_path) as [e|y].
  { do 3 eexists. split; [reflexivity|]. split; [now flatten_trace|].
    apply (OutNoCoefficients file_path [] (exn_msg e)). now left. }
  destruct (librosa_mfcc E y 13) as [e|mfcc].
  { do 3 eexists. split; [reflexivity|]. split; [now flatten_trace|].
    apply (OutNoCoefficients file_path [EvMfcc y] (exn_msg e)). eauto. }
  unfold gender_stage.
  set (X := [transpose (fix_length mfcc 160)]).
  destruct (gender_model_predict E X) as [e|gp].
  { do 3 eexists. split; [reflexivity|]. split; [now flatten_trace|].
    apply OutGenderError. }
  destruct (np_argmax (flatten gp)) as [e|gi].
  { do 3 eexists. split; [reflexivity|]. split; [now flatten_trace|].
    apply OutGenderError. }
  destruct (gi =? 1).
  2:{ do 3 eexists. split; [reflexivity|]. split; [now flatten_trace|].
      apply OutFemale. }
  unfold age_stage.
  destruct (age_model_predict E X) as [e|ap].
  { do 3 eexists. split; [reflexivity|]. split; [now flatten_trace|].
    apply OutAgeError. }
  destruct (np_argmax (flatten ap)) as [e|ai].
  { do 3 eexists. split; [reflexivity|]. split; [now flatten_trace|].
    apply OutAgeError. }
  destruct (ai =? 1).
  2:{ do 3 eexists. split; [reflexivity|]. split; [now flatten_trace|].
      apply OutNotSenior. }
  unfold emotion_stage. rewrite extract_mel_features_run.
  match goal with
  | |- context [librosa_load E ?k file_path] =>
      destruct (librosa_load E k file_path) as [e|y1]
  end.
  { do 3 eexists. split; [reflexivity|]. split; [now flatten_trace|].
    apply (OutNoSpectrogram file_path y X [] (exn_msg e)). now left. }
  destruct (librosa_melspectrogram E y1 128) as [e|mel].
  { do 3 eexists. split; [reflexivity|]. split; [now flatten_trace|].
    apply (OutNoSpectrogram file_path y X [EvMelspectrogram y1] (exn_msg e)).
    eauto. }
  destruct (power_to_db mel) as [e|mel_db].
  { do 3 eexists. split; [reflexivity|]. split; [now flatten_trace|].
    apply (OutNoSpectrogram file_path y X [EvMelspectrogram y1] (exn_msg e)).
    eauto. }
  set (Y := [newaxis_last (fix_length mel_db 160)]).
  destruct (emotion_model_predict E Y) as [e|ep].
  { do 3 eexists. split; [reflexivity|]. split; [now flatten_trace|].
    apply (OutEmotionError file_path y X y1 Y [] (exn_msg e)). now left. }
  destruct (np_argmax (flatten ep)) as [e|ei].
  { do 3 eexists. split; [reflexivity|]. split; [now flatten_trace|].
    apply (OutEmotionError file_path y X y1 Y [] (exn_msg e)). now left. }
  destruct (inverse_transform E ei) as [e|label].
  { do 3 eexists. split; [reflexivity|]. split; [now flatten_trace|].
    apply (OutEmotionError file_path y X y1 Y [EvInverseTransform ei]
             (exn_msg e)). eauto. }
  do 3 eexists. split; [reflexivity|]. split; [now flatten_trace|].
  apply OutDetected.
Qed.

End Outcomes.

(** * What the caller of [analyze_audio] can rely on *)

Lemma prefix_empty s : String.prefix "" s = true.
Proof. now destruct s. Qed.


Lemma is_detected_label label :
  is_detected ("✅ Detected Emotion: " ++ label) = true.
Proof. destruct label; reflexivity. Qed.

Lemma is_detected_handled msg : is_detected ("❌ Error: " ++ msg) = false.
Proof. destruct msg; reflexivity. Qed.

Lemma is_rejected_handled msg : is_rejected ("❌ Error: " ++ msg) = false.
Proof. destruct msg; reflexivity. Qed.

Lemma is_rejected_detected label :
  is_rejected ("✅ Detected Emotion: " ++ label) = false.
Proof. destruct label; reflexivity. Qed.

Section ResultTexts.

Variable E : Externals.

Lemma analyze_audio_kinds file_path w :
  exists s w',
    analyze_audio E file_path w = (inr s, w') /\
    ((is_error s = true /\ is_rejected s = false /\ is_detected s = false) \/
     (is_error s = false /\ is_rejected s = true /\ is_detected s = false) \/
     (is_error s = false /\ is_rejected s = false /\ is_detected s = true)).
Proof.
  destruct (analyze_audio_outcome E file_path w)
    as (s & w' & evs & Hrun & _ & Hout).
  exists s, w'. split; [exact Hrun|].
  destruct Hout as [pre msg Hpre|y X msg|y X|y X msg|y X|y X pre msg Hpre
                    |y X y1 Y pre msg Hpre|y X y1 Y idx label];
    try destruct msg; try destruct label; vm_compute; tauto.
Qed.

(** X1: the text that [analyze_audio] returns is of exactly one of the three
    kinds: it starts with the error mark, with the rejection mark or with
    the detection mark, and with no two of them. *)
Theorem analyze_audio_one_kind file_path w :
  exists s w',
    analyze_audio E file_path w = (inr s, w') /\
    ((is_error s = true /\ is_rejected s = false /\ is_detected s = false) \/
     (is_error s = false /\ is_rejected s = true /\ is_detected s = false) \/
     (is_error s = false /\ is_rejected s = false /\ is_detected s = true)).
Proof. exact (analyze_audio_kinds file_path w). Qed.


(** X3: the models are called in the order of the cascade, each at most
    once: the calls of a run are none, or the gender model, or the gender
    model and then the age model on the same batch, or these two and then
    the emotion model. *)
Theorem analyze_audio_model_calls file_path w :
  exists X Y,
    let calls :=
      filter is_predict
        (new_events w (snd (analyze_audio E file_path w))) in
    calls = [] \/
    calls = [EvPredictGender X] \/
    calls = [EvPredictGender X; EvPredictAge X] \/
    calls = [EvPredictGender X; EvPredictAge X; EvPredictEmotion Y].
Proof.
  destruct (analyze_audio_outcome E file_path w)
    as (s & w' & evs & Hrun & Htrace & Hout).
  rewrite Hrun. cbn [snd].
  rewrite (new_events_trace w w' evs Htrace).
  destruct Hout as [pre msg Hpre|y X msg|y X|y X msg|y X|y X pre msg Hpre
                    |y X y1 Y pre msg Hpre|y X y1 Y idx label].
  - exists [], []. left.
    destruct Hpre as [->|[y ->]]; reflexivity.
  - exists X, []. right. left. reflexivity.
  - exists X, []. right. left. reflexivity.
  - exists X, []. right. right. left. reflexivity.
  - exists X, []. right. right. left. reflexivity.
  - exists X, []. right. right. left.
    destruct Hpre as [->|[y1 ->]]; reflexivity.
  - exists X, Y. right. right. right.
    destruct Hpre as [->|[idx ->]]; reflexivity.
  - exists X, Y. right. right. right. reflexivity.
Qed.

End ResultTexts.

(** * The button *)

Section Button.

Variable E : Externals.

Lemma contains_error_text msg :
  contains "✅" ("❌ Error: " ++ msg) = contains "✅" msg.
Proof. destruct msg; reflexivity. Qed.

Lemma contains_detected_text label :
  contains "✅" ("✅ Detected Emotion: " ++ label) = true.
Proof. destruct label; reflexivity. Qed.

(** The four parts of the colour statement for an error that the outer
    handler caught. *)
Ltac handled_error Herror :=
  split; [intros H; rewrite is_detected_handled in H; discriminate|];
  split; [intros H; rewrite is_rejected_handled in H; discriminate|];
  split; [intros [H|H]; cbn in H; injection H as ->; reflexivity|];
  intros msg H; apply (Herror _ msg H).

(** What [browse_file] does with a path that was picked. *)
Lemma browse_file_picked chosen w g s w' :
  chosen <> "" ->
  analyze_audio E chosen w = (inr s, w') ->
  browse_file E chosen w g
  = (inr tt,
     (w', mkGui s (if contains "✅" s then "green" else "red")
                (redraws g ++ [("🔄 Processing...", "orange")]))).
Proof.
  intros Hchosen Hrun. unfold browse_file.
  destruct chosen as [|c rest]; [congruence|].
  rewrite Hrun. reflexivity.
Qed.

(** X4: [browse_file] never raises.  When the dialog is cancelled it leaves
    the label and the world as they are and analyses nothing.  When a path
    is picked it redraws the label once, as the orange processing notice,
    and returns with the label showing the text of [analyze_audio], which
    is never that notice: the window cannot stay on it. *)
Theorem browse_file_shows_the_result chosen w g :
  (chosen = "" -> browse_file E chosen w g = (inr tt, (w, g))) /\
  (chosen <> "" ->
   exists s w' g',
     analyze_audio E chosen w = (inr s, w') /\
     browse_file E chosen w g = (inr tt, (w', g')) /\
     label_text g' = s /\
     s <> "🔄 Processing..." /\
     redraws g' = redraws g ++ [("🔄 Processing...", "orange")]).
Proof.
  split.
  - intros ->. reflexivity.
  - intros Hchosen.
    destruct (analyze_audio_kinds E chosen w) as (s & w' & Hrun & Hkind).
    exists s, w'. eexists. split; [exact Hrun|].
    split; [apply (browse_file_picked chosen w g s w' Hchosen Hrun)|].
    split; [reflexivity|]. split; [|reflexivity].
    intros ->. vm_compute in Hkind.
    destruct Hkind as [(H & _)|[(_ & H & _)|(_ & _ & H)]]; discriminate.
Qed.

(** X5: the colour of the label after a path was picked.  A detection is
    shown in green; a rejection and the two errors of the extractors are
    shown in red; an error caught by the outer handler is shown in green
    exactly when the message of the exception contains the check mark. *)
Theorem browse_file_colour chosen w g :
  chosen <> "" ->
  exists s w' g',
    analyze_audio E chosen w = (inr s, w') /\
    browse_file E chosen w g = (inr tt, (w', g')) /\
    (is_detected s = true -> label_fg g' = "green") /\
    (is_rejected s = true -> label_fg g' = "red") /\
    (s = "❌ Error: Could not extract MFCC sequence." \/
     s = "❌ Error: Could not extract Mel features." ->
     label_fg g' = "red") /\
    (forall msg, s = ("❌ Error: " ++ msg)%string ->
                 (label_fg g' = "green" <-> contains "✅" msg = true)).
Proof.
  intros Hchosen.
  destruct (analyze_audio_outcome E chosen w)
    as (s & w' & evs & Hrun & _ & Hout).
  exists s, w'. eexists. split; [exact Hrun|].
  split; [apply (browse_file_picked chosen w g s w' Hchosen Hrun)|].
  cbn [label_fg].
  assert (Herror : forall msg0 msg,
             ("❌ Error: " ++ msg0)%string = ("❌ Error: " ++ msg)%string ->
             ((if contains "✅" ("❌ Error: " ++ msg0) then "green" else "red")
              = "green" <-> contains "✅" msg = true)).
  { intros msg0 msg Heq. cbn in Heq. injection Heq as ->.
    rewrite contains_error_text.
    destruct (contains "✅" msg); split; congruence. }
  destruct Hout as [pre msg0 Hpre|y X msg0|y X|y X msg0|y X|y X pre msg0 Hpre
                    |y X y1 Y pre msg0 Hpre|y X y1 Y idx label].
  - split; [discriminate|]. split; [discriminate|].
    split; [reflexivity|].
    intros msg H.
    apply (Herror "Could not extract MFCC sequence." msg H).
  - handled_error Herror.
  - split; [discriminate|]. split; [reflexivity|].
    split; [intros [H|H]; discriminate|].
    intros msg H. cbn in H. discriminate.
  - handled_error Herror.
  - split; [discriminate|]. split; [reflexivity|].
    split; [intros [H|H]; discriminate|].
    intros msg H. cbn in H. discriminate.
  - split; [discriminate|]. split; [discriminate|].
    split; [reflexivity|].
    intros msg H.
    apply (Herror "Could not extract Mel features." msg H).
  - handled_error Herror.
  - split; [intros _; now rewrite contains_detected_text|].
    split; [intros H; rewrite is_rejected_detected in H; discriminate|].
    split; [intros [H|H]; cbn in H; discriminate|].
    intros msg H. cbn in H. discriminate.
Qed.

End Button.

(** X4 on a voice the gender model rejects: the label ends with the
    rejection, after one redraw of the processing notice. *)
Lemma browse_file_shows_the_result_witness :
  exists w' g',
    browse_file mock_female "voice.wav" w0 blank_label = (inr tt, (w', g')) /\
    label_text g' = "🚫 Rejected: Female voice detected." /\
    redraws g' = [("🔄 Processing...", "orange")].
Proof.
  destruct (proj2 (browse_file_shows_the_result mock_female "voice.wav" w0
                     blank_label) ltac:(discriminate))
    as (s & w' & g' & Hrun & Hbrowse & Htext & _ & Hredraws).
  exists w', g'. split; [exact Hbrowse|]. split; [|exact Hredraws].
  rewrite Htext.
  rewrite (analyze_audio_female mock_female "voice.wav" w0 _ _
             [[1; 0]%R] 0
             (mock_extract_mfcc _ _ _ _ _ "voice.wav" w0 three_samples
                eq_refl)
             eq_refl np_argmax_class_0 ltac:(discriminate)) in Hrun.
  now injection Hrun as <- _.
Defined.

(** X5 on a gender model that fails with a check mark in its message: the
    label shows an error text in green. *)
Lemma browse_file_colour_witness :
  exists w' g',
    browse_file mock_misleading "voice.wav" w0 blank_label
    = (inr tt, (w', g')) /\
    is_error (label_text g') = true /\
    label_fg g' = "green".
Proof.
  destruct (browse_file_colour mock_misleading "voice.wav" w0 blank_label
              ltac:(discriminate))
    as (s & w' & g' & Hrun & Hbrowse & _ & _ & _ & Hhandled).
  assert (Hs : s = ("❌ Error: " ++ "✅")%string).
  { revert Hrun. rewrite analyze_audio_run. unfold mock_misleading.
    rewrite (mock_extract_mfcc _ _ _ _ _ "voice.wav" w0 three_samples
               eq_refl).
    unfold gender_stage, handled.
    cbn [gender_model_predict mock_externals exn_msg].
    now intros [= <- _]. }
  exists w', g'. split; [exact Hbrowse|]. split.
  - rewrite (browse_file_picked mock_misleading "voice.wav" w0 blank_label
               s w' ltac:(discriminate) Hrun) in Hbrowse.
    injection Hbrowse as <-. rewrite Hs. reflexivity.
  - apply (Hhandled "✅" Hs). reflexivity.
Defined.

(** * More on the two features *)

Section Features.

Variable E : Externals.

Open Scope R_scope.

(** X6: every value of a spectrogram tensor lies between -80 and 0
    decibels, whatever the recording and whatever [max_len]. *)
Theorem mel_values_in_range file_path max_len w t w' :
  extract_mel_features E file_path max_len w = (inr (Some t), w') ->
  forall v, In v (flatten3 t) -> -80 <= v <= 0.
Proof.
  rewrite extract_mel_features_run.
  destruct (librosa_load E (loads w) file_path) as [e|y]; [discriminate|].
  destruct (librosa_melspectrogram E y 128) as [e|mel]; [discriminate|].
  destruct (power_to_db mel) as [e|mel_db] eqn:Hdb; [discriminate|].
  intros [= <- _] v Hv.
  rewrite flatten3_newaxis_last in Hv.
  apply in_flatten_fix_length in Hv as [Hv| ->]; [|lra].
  split; [|eapply power_to_db_nonpos; eauto].
  destruct (power_to_db_cells _ _ Hdb) as (ref & _ & ->).
  unfold flatten in Hv. rewrite <- concat_map in Hv.
  apply in_map_iff in Hv as (x & <- & _).
  eapply Rle_trans; [|apply Rmax_r]. unfold top_db. lra.
Qed.

End Features.

(** X6 on the three-sample recording. *)
Lemma mel_values_in_range_witness :
  exists t w',
    extract_mel_features mock_female "voice.wav" 160 w0
    = (inr (Some t), w') /\
    Forall (fun v => (-80 <= v <= 0)%R) (flatten3 t).
Proof.
  destruct (mock_extract_mel (one_file three_samples) class_0 class_1
              class_2_of_4 emotion_labels "voice.wav" w0 three_samples
              eq_refl ltac:(discriminate)) as (mel_db & Hdb & Hrun).
  eexists _, _. split; [exact Hrun|].
  apply Forall_forall.
  exact (mel_values_in_range mock_female "voice.wav" 160 w0 _ _ Hrun).
Defined.

(** * The decision rule of a gate *)

Section GateRule.

Open Scope R_scope.

Lemma argmax_from_range best bi i l :
  argmax_from best bi i l = bi \/ (i <= argmax_from best bi i l)%nat.
Proof.
  revert best bi i. induction l as [|x t IH]; intros best bi i; simpl.
  - now left.
  - destruct (Rlt_dec best x).
    + right. destruct (IH x i (S i)) as [->|H]; lia.
    + destruct (IH best bi (S i)) as [H|H]; [now left | right; lia].
Qed.

Lemma argmax_from_stays best bi i l :
  Forall (fun x => x <= best) l -> argmax_from best bi i l = bi.
Proof.
  revert i. induction l as [|x t IH]; intros i Hall; simpl.
  - reflexivity.
  - apply Forall_cons_iff in Hall as [Hx Ht].
    destruct (Rlt_dec best x); [lra | now apply IH].
Qed.

Lemma argmax_from_stayed best bi i l :
  (bi < i)%nat ->
  argmax_from best bi i l = bi -> Forall (fun x => x <= best) l.
Proof.
  revert i. induction l as [|x t IH]; intros i Hlt Heq; simpl in *.
  - constructor.
  - destruct (Rlt_dec best x) as [Hbx|Hbx].
    + destruct (argmax_from_range x i (S i) t) as [H|H]; lia.
    + constructor; [lra | apply (IH (S i)); [lia | exact Heq]].
Qed.

(** [np.argmax] answers 1 exactly when the second value is greater than
    the first and no later value is greater than the second. *)
Lemma np_argmax_is_1 l :
  np_argmax l = inr 1%nat <->
  exists a b rest, l = a :: b :: rest /\ a < b /\
                   Forall (fun x => x <= b) rest.
Proof.
  split.
  - destruct l as [|a [|b rest]]; simpl; try discriminate.
    destruct (Rlt_dec a b) as [Hab|Hab]; intros [= Heq].
    + exists a, b, rest. split; [reflexivity|]. split; [exact Hab|].
      apply (argmax_from_stayed b 1 2 rest); [lia | exact Heq].
    + destruct (argmax_from_range a 0 2 rest) as [H|H]; lia.
  - intros (a & b & rest & -> & Hab & Hrest). simpl.
    destruct (Rlt_dec a b); [|lra].
    now rewrite argmax_from_stays.
Qed.

Variable E : Externals.

(** X10: the rule of the gender gate.  With the coefficients extracted and
    the gender model answering, the age model is called exactly when the
    second value of the answer is greater than the first and no later value
    is greater than the second.  In every other case with an answer that is
    not empty the run ends with the rejection of a female voice: a tie
    between the two classes and an answer with a single value are both
    rejected. *)
Theorem gender_gate_rule file_path w mfcc_seq w1 gender_pred :
  extract_mfcc_sequence E file_path 160 w = (inr (Some mfcc_seq), w1) ->
  gender_model_predict E [mfcc_seq] = inr gender_pred ->
  (In (EvPredictAge [mfcc_seq])
      (new_events w (snd (analyze_audio E file_path w))) <->
   exists a b rest, flatten gender_pred = a :: b :: rest /\ a < b /\
                    Forall (fun x => x <= b) rest) /\
  (flatten gender_pred <> [] ->
   ~ (exists a b rest, flatten gender_pred = a :: b :: rest /\ a < b /\
                       Forall (fun x => x <= b) rest) ->
   fst (analyze_audio E file_path w)
   = inr "🚫 Rejected: Female voice detected.").
Proof.
  intros Hx Hg.
  destruct (extract_mfcc_sequence_world E _ _ _ _ Hx)
    as (y & mfcc & _ & _ & _ & Hw1).
  destruct (np_argmax (flatten gender_pred)) as [e|idx] eqn:Hk.
  - (* the answer is empty *)
    assert (Hnil : flatten gender_pred = []).
    { destruct (flatten gender_pred); [reflexivity | discriminate]. }
    split.
    + rewrite analyze_audio_run, Hx. unfold gender_stage. rewrite Hg, Hk.
      unfold handled. cbn [snd].
      erewrite new_events_trace
        by (rewrite Hw1; unfold log, after_load; cbn [trace];
            rewrite <- app_assoc; reflexivity).
      split.
      * cbn. intros [H|[H|[H|[H|[]]]]]; discriminate.
      * intros (a & b & rest & Heq & _). congruence.
    + intros Hne. congruence.
  - destruct (Nat.eq_dec idx 1) as [->|Hne].
    + (* index 1 *)
      pose proof (proj1 (np_argmax_is_1 _) Hk) as Hcond.
      split; [|intros _ Hnot; contradiction].
      split; [intros _; exact Hcond|intros _].
      rewrite (analyze_audio_male E _ _ _ _ _ Hx Hg Hk).
      unfold age_stage.
      assert (Hin : forall w2 evs,
                 trace w2
                 = trace w ++ [EvLoad file_path; EvMfcc y;
                               EvPredictGender [mfcc_seq];
                               EvPrint "[INFO] Gender: male";
                               EvPredictAge [mfcc_seq]] ++ evs ->
                 In (EvPredictAge [mfcc_seq]) (new_events w w2)).
      { intros w2 evs Htrace.
        rewrite (new_events_trace w w2 _ Htrace).
        apply in_or_app. left. cbn. auto 6. }
      destruct (age_model_predict E [mfcc_seq]) as [e|ap].
      { eapply Hin. rewrite Hw1. unfold handled, log, after_load.
        cbn [snd trace]. rewrite <- !app_assoc. reflexivity. }
      destruct (np_argmax (flatten ap)) as [e|ai].
      { eapply Hin. rewrite Hw1. unfold handled, log, after_load.
        cbn [snd trace]. rewrite <- !app_assoc. reflexivity. }
      destruct (ai =? 1)%nat.
      2:{ eapply Hin. rewrite Hw1. unfold log, after_load.
          cbn [snd trace]. rewrite <- !app_assoc. reflexivity. }
      match goal with
      | |- context [emotion_stage E file_path ?w2] =>
          destruct (emotion_stage E file_path w2) as [r w'] eqn:Hem
      end.
      apply emotion_stage_events in Hem as (evs & Htrace & _).
      eapply Hin. cbn [snd]. rewrite Htrace, Hw1. unfold log, after_load.
      cbn [trace]. rewrite <- !app_assoc. reflexivity.
    + (* another index *)
      assert (Hnot : ~ (exists a b rest,
                           flatten gender_pred = a :: b :: rest /\ a < b /\
                           Forall (fun x => x <= b) rest)).
      { intros Hcond. apply (proj2 (np_argmax_is_1 _)) in Hcond.
        congruence. }
      rewrite (analyze_audio_female E _ _ _ _ _ _ Hx Hg Hk Hne).
      split; [|reflexivity].
      split; [|intros Hcond; contradiction].
      cbn [snd].
      erewrite new_events_trace
        by (rewrite Hw1; unfold log, after_load; cbn [trace];
            rewrite <- app_assoc; reflexivity).
      cbn. intros [H|[H|[H|[H|[]]]]]; discriminate.
Qed.

End GateRule.

(** X10 on a tie between the two classes of the gender model. *)
Lemma gender_gate_rule_witness :
  fst (analyze_audio mock_tie "voice.wav" w0)
  = inr "🚫 Rejected: Female voice detected.".
Proof.
  apply (proj2 (gender_gate_rule mock_tie "voice.wav" w0 _ _ [[1; 1]%R]
                  (mock_extract_mfcc _ _ _ _ _ "voice.wav" w0 three_samples
                     eq_refl)
                  eq_refl)).
  - discriminate.
  - intros (a & b & rest & Heq & Hab & _).
    cbn in Heq. injection Heq as <- <- _. lra.
Defined.

(** * Padding *)

Section Padding.

Open Scope R_scope.

Lemma newaxis_last_nth r c m i j :
  has_shape r c m -> (i < r)%nat -> (j < c)%nat ->
  nth j (nth i (newaxis_last m) []) [] = [nth j (nth i m []) 0].
Proof.
  intros Hm Hi Hj. unfold newaxis_last.
  rewrite (nth_indep _ [] (map (fun x => [x]) []))
    by (rewrite length_map; destruct Hm as [-> _]; exact Hi).
  rewrite (map_nth (map (fun x : R => [x]))).
  rewrite (nth_indep _ [] ((fun x : R => [x]) 0))
    by (rewrite length_map, (has_shape_nth r c m i Hm Hi); exact Hj).
  now rewrite (map_nth (fun x : R => [x])).
Qed.

Variable E : Externals.

(** X11: in the spectrogram tensor of a recording with fewer than 160
    frames, every cell of the padding holds the largest value of the tensor:
    the padding is at the level of the loudest cell, 0 decibels, and not at
    the floor of -80. *)
Theorem mel_padding_is_the_maximum file_path w t w' y mel frames :
  extract_mel_features E file_path 160 w = (inr (Some t), w') ->
  librosa_load E (loads w) file_path = inr y ->
  librosa_melspectrogram E y 128 = inr mel ->
  has_shape 128 frames mel ->
  (frames < 160)%nat ->
  np_max (flatten3 t) = inr 0 /\
  forall i j, (i < 128)%nat -> (frames <= j < 160)%nat ->
              nth j (nth i t []) [] = [0].
Proof.
  intros Hrun Hload Hmel Hshape Hframes.
  revert Hrun. rewrite extract_mel_features_run, Hload, Hmel.
  destruct (power_to_db mel) as [e|mel_db] eqn:Hdb; [discriminate|].
  intros [= <- _].
  pose proof (power_to_db_shape _ _ _ _ Hdb Hshape) as Hshape'.
  pose proof (fix_length_shape 128 frames mel_db 160 Hshape' ltac:(lia))
    as Hfix.
  split.
  - rewrite flatten3_newaxis_last. apply np_max_attained.
    + eapply in_flatten_fix_length_keeps; eauto; [lia | lia |].
      eapply power_to_db_zero; eauto.
    + intros v Hv. apply in_flatten_fix_length in Hv as [Hv| ->]; [|lra].
      eapply power_to_db_nonpos; eauto.
  - intros i j Hi Hj.
    rewrite (newaxis_last_nth 128 160 _ i j Hfix Hi) by lia.
    rewrite (fix_length_entry 128 frames mel_db 160 i j Hshape' Hi) by lia.
    destruct (Nat.ltb_spec j frames); [lia | reflexivity].
Qed.

End Padding.

(** X11 on the three-sample recording: frame 3 is padding. *)
Lemma mel_padding_is_the_maximum_witness :
  exists t w',
    extract_mel_features mock_female "voice.wav" 160 w0
    = (inr (Some t), w') /\
    np_max (flatten3 t) = inr 0%R /\
    nth 3 (nth 0 t []) [] = [0%R].
Proof.
  destruct (mock_extract_mel (one_file three_samples) class_0 class_1
              class_2_of_4 emotion_labels "voice.wav" w0 three_samples
              eq_refl ltac:(discriminate)) as (mel_db & Hdb & Hrun).
  destruct (mel_padding_is_the_maximum mock_female "voice.wav" w0 _ _
              three_samples (repeat three_samples 128) 3
              Hrun eq_refl eq_refl (repeat_has_shape three_samples 128)
              ltac:(lia)) as [Hmax Hpad].
  eexists _, _. split; [exact Hrun|]. split; [exact Hmax|].
  apply Hpad; lia.
Defined.

(** * [max_len] as any integer *)

Section IntegerLength.

Lemma slice_cols_int_nat m n : slice_cols_int m (Z.of_nat n) = slice_cols m n.
Proof.
  unfold slice_cols_int, slice_cols, slice_stop.
  apply map_ext. intros row.
  destruct (Z.ltb_spec (Z.of_nat n) 0); [lia|].
  now rewrite Nat2Z.id.
Qed.

(** On the natural numbers the two versions of the shared branch agree. *)
Lemma fix_length_int_nat m n : fix_length_int m (Z.of_nat n) = fix_length m n.
Proof.
  unfold fix_length_int, fix_length.
  destruct (Z.ltb_spec (Z.of_nat (ncols m)) (Z.of_nat n));
    destruct (Nat.ltb_spec (ncols m) n); try lia.
  - f_equal. lia.
  - apply slice_cols_int_nat.
Qed.


Variable E : Externals.

Lemma extract_mfcc_sequence_int_run file_path max_len w :
  extract_mfcc_sequence_int E file_path max_len w =
  match librosa_load E (loads w) file_path with
  | inl e =>
      (inr None,
       after_load w file_path
         [EvPrint ("[ERROR] MFCC extraction failed: " ++ exn_msg e)%string])
  | inr y =>
      match librosa_mfcc E y 13 with
      | inl e =>
          (inr None,
           after_load w file_path
             [EvMfcc y;
              EvPrint ("[ERROR] MFCC extraction failed: " ++ exn_msg e)%string])
      | inr mfcc =>
          (inr (Some (transpose (fix_length_int mfcc max_len))),
           after_load w file_path [EvMfcc y])
      end
  end.
Proof.
  unfold extract_mfcc_sequence_int, try_except, bind, load, call, print, emit,
    lift, ret, after_load.
  destruct (librosa_load E (loads w) file_path) as [e|y]; cbn.
  - now rewrite <- app_assoc.
  - destruct (librosa_mfcc E y 13) as [e|mfcc]; cbn;
      now rewrite <- !app_assoc.
Qed.

Lemma extract_mel_features_int_run file_path max_len w :
  extract_mel_features_int E file_path max_len w =
  match librosa_load E (loads w) file_path with
  | inl e =>
      (inr None,
       after_load w file_path
         [EvPrint ("[ERROR] Mel feature extraction failed: "
                   ++ exn_msg e)%string])
  | inr y =>
      match librosa_melspectrogram E y 128 with
      | inl e =>
          (inr None,
           after_load w file_path
             [EvMelspectrogram y;
              EvPrint ("[ERROR] Mel feature extraction failed: "
                       ++ exn_msg e)%string])
      | inr mel =>
          match power_to_db mel with
          | inl e =>
              (inr None,
               after_load w file_path
                 [EvMelspectrogram y;
                  EvPrint ("[ERROR] Mel feature extraction failed: "
                           ++ exn_msg e)%string])
          | inr mel_db =>
              (inr (Some (newaxis_last (fix_length_int mel_db max_len))),
               after_load w file_path [EvMelspectrogram y])
          end
      end
  end.
Proof.
  unfold extract_mel_features_int, try_except, bind, load, call, print, emit,
    lift, ret, after_load.
  destruct (librosa_load E (loads w) file_path) as [e|y]; cbn.
  - now rewrite <- app_assoc.
  - destruct (librosa_melspectrogram E y 128) as [e|mel]; cbn.
    + now rewrite <- !app_assoc.
    + destruct (power_to_db mel) as [e|mel_db]; cbn;
        now rewrite <- !app_assoc.
Qed.

(** With a natural [max_len] the integer versions are the extractors that
    [analyze_audio] calls. *)
Lemma extract_mfcc_sequence_int_nat file_path n w :
  extract_mfcc_sequence_int E file_path (Z.of_nat n) w
  = extract_mfcc_sequence E file_path n w.
Proof.
  rewrite extract_mfcc_sequence_int_run, extract_mfcc_sequence_run.
  destruct (librosa_load E (loads w) file_path) as [e|y]; [reflexivity|].
  destruct (librosa_mfcc E y 13) as [e|mfcc]; [reflexivity|].
  now rewrite fix_length_int_nat.
Qed.

Lemma extract_mel_features_int_nat file_path n w :
  extract_mel_features_int E file_path (Z.of_nat n) w
  = extract_mel_features E file_path n w.
Proof.
  rewrite extract_mel_features_int_run, extract_mel_features_run.
  destruct (librosa_load E (loads w) file_path) as [e|y]; [reflexivity|].
  destruct (librosa_melspectrogram E y 128) as [e|mel]; [reflexivity|].
  destruct (power_to_db mel) as [e|mel_db]; [reflexivity|].
  now rewrite fix_length_int_nat.
Qed.



(** X8: for a [max_len] that is not negative, the coefficient tensor
    depends only on the first [max_len] frames of the cepstral analysis.
    Two recordings whose analyses have at least [max_len] frames and agree
    on the first [max_len] of them give the same tensor, so nothing after
    those frames reaches the gender and the age model. *)
Theorem mfcc_ignores_later_frames file_path1 w1 file_path2 w2 (max_len : Z)
    y1 y2 mfcc1 mfcc2 frames1 frames2 :
  librosa_load E (loads w1) file_path1 = inr y1 ->
  librosa_mfcc E y1 13 = inr mfcc1 ->
  librosa_load E (loads w2) file_path2 = inr y2 ->
  librosa_mfcc E y2 13 = inr mfcc2 ->
  has_shape 13 frames1 mfcc1 ->
  has_shape 13 frames2 mfcc2 ->
  (0 <= max_len)%Z ->
  (max_len <= Z.of_nat frames1)%Z ->
  (max_len <= Z.of_nat frames2)%Z ->
  (forall j, (Z.of_nat j < max_len)%Z -> col mfcc1 j = col mfcc2 j) ->
  fst (extract_mfcc_sequence_int E file_path1 max_len w1)
  = fst (extract_mfcc_sequence_int E file_path2 max_len w2).
Proof.
  intros Hl1 Hm1 Hl2 Hm2 Hs1 Hs2 Hpos Hf1 Hf2 Hcols.
  rewrite !extract_mfcc_sequence_int_run, Hl1, Hm1, Hl2, Hm2. cbn [fst].
  do 2 f_equal.
  rewrite <- (Z2Nat.id max_len Hpos), !fix_length_int_nat.
  set (n := Z.to_nat max_len).
  assert (Hn1 : n <= frames1) by lia.
  assert (Hn2 : n <= frames2) by lia.
  unfold transpose.
  rewrite (has_shape_ncols 13 n (fix_length mfcc1 n))
    by (try eapply fix_length_shape; eauto; lia).
  rewrite (has_shape_ncols 13 n (fix_length mfcc2 n))
    by (try eapply fix_length_shape; eauto; lia).
  apply map_ext_in. intros j Hj. apply in_seq in Hj.
  rewrite (fix_length_col 13 frames1 mfcc1 n j Hs1) by lia.
  rewrite (fix_length_col 13 frames2 mfcc2 n j Hs2) by lia.
  destruct (Nat.ltb_spec j frames1); [|lia].
  destruct (Nat.ltb_spec j frames2); [|lia].
  apply Hcols. lia.
Qed.



End IntegerLength.


(** X8 with two takes that differ in their third frame only, cut to two
    frames. *)
Lemma mfcc_ignores_later_frames_witness :
  fst (extract_mfcc_sequence_int
         (mock_two_takes three_samples three_samples_b) "voice.wav" 2 w0)
  = fst (extract_mfcc_sequence_int
           (mock_two_takes three_samples three_samples_b) "voice.wav" 2
           (mkWorld 1 [])).
Proof.
  apply (mfcc_ignores_later_frames
           (mock_two_takes three_samples three_samples_b)
           "voice.wav" w0 "voice.wav" (mkWorld 1 []) 2
           three_samples three_samples_b
           (repeat three_samples 13) (repeat three_samples_b 13) 3 3
           eq_refl eq_refl eq_refl eq_refl
           (repeat_has_shape three_samples 13)
           (repeat_has_shape three_samples_b 13)
           ltac:(lia) ltac:(lia) ltac:(lia)).
  intros j Hj.
  destruct j as [|[|j]]; [reflexivity | reflexivity | lia].
Defined.

